(** * Student Document Dashboard: the backend of [app.py]

    A shallow embedding of [backend/app.py]: the abuse throttle
    ([FAILED_ATTEMPTS], [BLOCKED_IPS], [is_ip_blocked],
    [register_failed_attempt]), the [auth_required] gateway, the four
    routes ([login], [upload_document], [list_documents],
    [download_document]) and the upload validator [validate_pdf].

    The process state of the Flask application (the two throttle
    dictionaries, the two database tables, the upload folder, the
    security log and the system clock) is one record, [World], threaded
    through a state monad.  The libraries the module calls (PyJWT,
    werkzeug's password hashing and [secure_filename], [uuid.uuid4]) are
    an interface, [Platform]. *)

From Stdlib Require Import ZArith Ascii String DecimalString.
From Stdlib.Strings Require Import Byte.
From stdpp Require Import gmap strings list.

Local Open Scope string_scope.
Local Open Scope Z_scope.

#[global] Instance byte_eq_decision : EqDecision byte := Byte.byte_eq_dec.

(** ** Python strings and bytes *)

(** [str(n)] for a Python integer. *)
Definition str (n : Z) : string := NilZero.string_of_int (Z.to_int n).

(** [s.startswith(p)]. *)
Definition startswith (s p : string) : bool := String.prefix p s.

(** [s.endswith(p)]: [s] is [p], or what follows its first character ends
    with [p]. *)
Fixpoint endswith (s p : string) : bool :=
  String.eqb s p ||
  match s with
  | String _ s' => endswith s' p
  | EmptyString => false
  end.

(** [c.lower()] on one character: only ASCII capitals change. *)
Definition lower_ascii (c : ascii) : ascii :=
  let n := nat_of_ascii c in
  if ((65 <=? n) && (n <=? 90))%nat then ascii_of_nat (n + 32) else c.

(** [s.lower()]. *)
Fixpoint lower (s : string) : string :=
  match s with
  | EmptyString => EmptyString
  | String c s' => String (lower_ascii c) (lower s')
  end.

(** The characters [str.strip()] removes, among the 256 a header can carry:
    tab to carriage return, the four separators 28 to 31, the space, the
    next-line character 133 and the no-break space 160. *)
Definition isspace (c : ascii) : bool :=
  let n := nat_of_ascii c in
  (((9 <=? n) && (n <=? 13)) || ((28 <=? n) && (n <=? 32))
   || (n =? 133) || (n =? 160))%nat.

(** [s.lstrip()]. *)
Fixpoint lstrip (s : string) : string :=
  match s with
  | String c s' => if isspace c then lstrip s' else s
  | EmptyString => EmptyString
  end.

(** [s.strip()]. *)
Definition strip (s : string) : string :=
  String.rev (lstrip (String.rev (lstrip s))).

(** [s.split(" ", 1)[1]] for an [s] that has a space: what follows the
    first space. *)
Fixpoint after_first_space (s : string) : string :=
  match s with
  | String c s' => if Ascii.eqb c " " then s' else after_first_space s'
  | EmptyString => EmptyString
  end.

(** ** Database models *)

Module User.
Record t := mk {
  id : Z;
  email : string;
  password_hash : string;
  created_at : Z
}.
End User.

Module Document.
Record t := mk {
  id : string;
  user_id : Z;
  original_name : string;
  stored_name : string;
  uploaded_at : Z
}.
End Document.

(** ** The security log

    One constructor per [logging.warning] call of the module;
    [log_message] is the text the call formats. *)

Inductive LogRecord :=
| IpBlocked (ip : string)
| BlockedIpRequest (ip : string)
| UnauthorizedDownload (user : Z) (file : string) (ip : string).

Definition log_message (r : LogRecord) : string :=
  match r with
  | IpBlocked ip => "IP blocked due to excessive failures: " ++ ip
  | BlockedIpRequest ip => "Blocked IP attempted request: " ++ ip
  | UnauthorizedDownload user file ip =>
      "Unauthorized download attempt: user=" ++ str user
      ++ " tried file=" ++ file ++ " from IP=" ++ ip
  end.

(** ** Process state *)

Record World := mkWorld {
  FAILED_ATTEMPTS : gmap string Z;      (* defaultdict(int) *)
  BLOCKED_IPS : gmap string Z;          (* address -> block-until *)
  users : list User.t;                  (* table User *)
  documents : list Document.t;          (* table Document, insertion order *)
  uploads : gmap string (list byte);    (* files on disk, by path *)
  security_log : list LogRecord;        (* security.log *)
  clock : Z;                            (* last reading of the clock, seconds *)
  ticks : list nat;                     (* seconds elapsing before each coming reading *)
  entropy : nat                         (* number of uuid4() calls so far *)
}.

Definition set_FAILED_ATTEMPTS (f : gmap string Z) (w : World) : World :=
  mkWorld f (BLOCKED_IPS w) (users w) (documents w) (uploads w)
          (security_log w) (clock w) (ticks w) (entropy w).

Definition set_BLOCKED_IPS (b : gmap string Z) (w : World) : World :=
  mkWorld (FAILED_ATTEMPTS w) b (users w) (documents w) (uploads w)
          (security_log w) (clock w) (ticks w) (entropy w).

Definition set_documents (d : list Document.t) (w : World) : World :=
  mkWorld (FAILED_ATTEMPTS w) (BLOCKED_IPS w) (users w) d (uploads w)
          (security_log w) (clock w) (ticks w) (entropy w).

Definition set_uploads (u : gmap string (list byte)) (w : World) : World :=
  mkWorld (FAILED_ATTEMPTS w) (BLOCKED_IPS w) (users w) (documents w) u
          (security_log w) (clock w) (ticks w) (entropy w).

Definition set_security_log (l : list LogRecord) (w : World) : World :=
  mkWorld (FAILED_ATTEMPTS w) (BLOCKED_IPS w) (users w) (documents w)
          (uploads w) l (clock w) (ticks w) (entropy w).

Definition set_clock (c : Z) (t : list nat) (w : World) : World :=
  mkWorld (FAILED_ATTEMPTS w) (BLOCKED_IPS w) (users w) (documents w)
          (uploads w) (security_log w) c t (entropy w).

Definition set_entropy (n : nat) (w : World) : World :=
  mkWorld (FAILED_ATTEMPTS w) (BLOCKED_IPS w) (users w) (documents w)
          (uploads w) (security_log w) (clock w) (ticks w) n.

(** ** The state monad of a request handler *)

Definition M (A : Type) : Type := World -> A * World.

Definition ret {A} (a : A) : M A := fun w => (a, w).

Definition bind {A B} (m : M A) (k : A -> M B) : M B :=
  fun w => let (a, w') := m w in k a w'.

Definition gets {A} (f : World -> A) : M A := fun w => (f w, w).

Definition modify (f : World -> World) : M unit := fun w => (tt, f w).

Notation "'let!' x := m 'in' k" := (bind m (fun x => k))
  (at level 10, x name, m at level 200, k at level 200).
Notation "'run!' m 'in' k" := (bind m (fun _ => k))
  (at level 10, m at level 200, k at level 200).

(** [time.time()] and [datetime.now()]: the next reading of the clock.
    Time is counted in whole seconds, the unit of the block duration and of
    the dates PyJWT writes into a token.  Every call is a reading of its
    own: readings never decrease, and two successive readings differ by the
    head of [ticks] (by nothing once [ticks] is empty). *)
Definition time_time : M Z := fun w =>
  let now := clock w + Z.of_nat (hd 0%nat (ticks w)) in
  (now, set_clock now (tl (ticks w)) w).

(** [logging.warning(...)]: the level is WARNING, so the record is written. *)
Definition logging_warning (r : LogRecord) : M unit :=
  modify (fun w => set_security_log (security_log w ++ [r]) w).

(** ** Rate limiting (basic) *)

Definition BLOCK_THRESHOLD : Z := 10.
Definition BLOCK_DURATION : Z := 60.

(** [FAILED_ATTEMPTS[ip]] read through the [defaultdict(int)]. *)
Definition failures (w : World) (ip : string) : Z :=
  default 0 (FAILED_ATTEMPTS w !! ip).

Definition is_ip_blocked (ip : string) : M bool :=
  let! blocked := gets BLOCKED_IPS in
  match blocked !! ip with
  | Some until =>
      let! now := time_time in
      if now <? until then ret true
      else
        run! modify (fun w => set_BLOCKED_IPS (delete ip (BLOCKED_IPS w)) w) in
        ret false
  | None => ret false
  end.

Definition register_failed_attempt (ip : string) : M unit :=
  run! modify (fun w =>
    set_FAILED_ATTEMPTS (<[ip := failures w ip + 1]> (FAILED_ATTEMPTS w)) w) in
  let! count := gets (fun w => failures w ip) in
  if BLOCK_THRESHOLD <=? count then
    let! now := time_time in
    run! modify (fun w =>
      set_BLOCKED_IPS (<[ip := now + BLOCK_DURATION]> (BLOCKED_IPS w)) w) in
    logging_warning (IpBlocked ip)
  else ret tt.

(** ** The libraries behind the module *)

(** The claims [login] signs: [sub], [email], [iat], [exp]. PyJWT writes the
    two dates as whole seconds. *)
Module Payload.
Record t := mk {
  sub : Z;
  email : string;
  iat : Z;
  exp : Z
}.
End Payload.

(** What [jwt.decode] does: it returns the claims, or raises
    [ExpiredSignatureError], or another [InvalidTokenError]. *)
Inductive Decoded :=
| Claims (payload : Payload.t)
| ExpiredSignatureError
| InvalidTokenError.

Class Platform := {
  JWT_SECRET_KEY : string;
  (** [jwt.encode(payload, key, algorithm="HS256")] *)
  jwt_encode : Payload.t -> string -> string;
  (** [jwt.decode(token, key, algorithms=["HS256"])] at a reading of the clock *)
  jwt_decode : string -> string -> Z -> Decoded;
  (** [check_password_hash(pwhash, password)] *)
  check_password_hash : string -> string -> bool;
  (** werkzeug's [secure_filename] *)
  secure_filename : string -> string;
  (** the n-th value [str(uuid.uuid4())] returns *)
  uuid4 : nat -> string
}.

Definition JWT_EXPIRATION_SECONDS : Z := 3600.
Definition UPLOAD_FOLDER : string := "uploads".

(** ** Requests and responses *)

(** An uploaded part, werkzeug's [FileStorage]: the declared type and name,
    and a byte stream with its read position. *)
Record FileStorage := mkFile {
  mimetype : string;
  filename : string;
  stream : list byte;
  position : nat
}.

(** What the handlers read of a Flask request.  The values of the JSON body
    are strings, as are those of the query string and of the form.  [json]
    is what [request.get_json()] returns when it returns: the object of the
    body, or [None] for a body that is the JSON value [null].  A request on
    which [get_json()] raises (no JSON content type, a body that does not
    parse) is answered by the framework and is not a [Request] of this
    model. *)
Record Request := mkRequest {
  remote_addr : string;
  headers : gmap string string;        (* request.headers *)
  json : option (gmap string string);  (* request.get_json() *)
  args : gmap string string;           (* request.args *)
  form : gmap string string;           (* request.form *)
  files : gmap string FileStorage      (* request.files *)
}.

(** [serialize_document]'s dictionary. *)
Record DocumentJson := mkDocumentJson {
  json_id : string;
  json_original_name : string;
  json_stored_name : string;
  json_uploaded_at : Z
}.

Inductive Body :=
| Error (error : string)                           (* {"error": ...} *)
| LoginSuccessful (id : Z) (email token : string)  (* {"message", "user", "token"} *)
| FileUploaded (document : DocumentJson)           (* {"message", "document"} *)
| DocumentList (docs : list DocumentJson)          (* [...] *)
| Attachment (name : string) (content : list byte) (* send_from_directory *)
| ErrorPage.                                       (* the framework's own error page *)

Record Response := mkResponse {
  status : Z;
  body : Body
}.

(** [jsonify(b)] and [jsonify(b), code]. *)
Definition jsonify (b : Body) : Response := mkResponse 200 b.
Definition jsonify_code (b : Body) (code : Z) : Response := mkResponse code b.

(** Python's [not x] for a value that is a string or [None]. *)
Definition not_ (x : option string) : bool :=
  match x with
  | None => true
  | Some s => String.eqb s EmptyString
  end.

(** ** Utils *)

Definition serialize_document (doc : Document.t) : DocumentJson :=
  mkDocumentJson (Document.id doc) (Document.original_name doc)
                 (Document.stored_name doc) (Document.uploaded_at doc).

(** [file.read(n)]: up to [n] bytes from the read position, which moves on. *)
Definition file_read (n : nat) (file : FileStorage) : list byte * FileStorage :=
  let data := take n (drop (position file) (stream file)) in
  (data, mkFile (mimetype file) (filename file) (stream file)
                (position file + length data)%nat).

(** [file.seek(pos)]. *)
Definition file_seek (pos : nat) (file : FileStorage) : FileStorage :=
  mkFile (mimetype file) (filename file) (stream file) pos.

(** [b"%PDF"]. *)
Definition PDF_MAGIC : list byte := [x25; x50; x44; x46].

(** [validate_pdf(file)]: the verdict, and the file object as the call leaves it. *)
Definition validate_pdf (file : FileStorage) : bool * FileStorage :=
  (* 1) Check browser-reported MIME type *)
  if negb (String.eqb (mimetype file) "application/pdf") then (false, file)
  else
    (* 2) Check file signature (first bytes) *)
    let (header, file) := file_read 4 file in
    let file := file_seek 0 file in
    if negb (bool_decide (header = PDF_MAGIC)) then (false, file)
    (* 3) Check filename extension *)
    else if negb (endswith (lower (filename file)) ".pdf") then (false, file)
    else (true, file).

(** [file.save(path)]: what is left of the stream goes to disk. *)
Definition file_save (path : string) (file : FileStorage) : M unit :=
  modify (fun w =>
    set_uploads (<[path := drop (position file) (stream file)]> (uploads w)) w).

(** [User.query.get(id)], [User.query.filter_by(email=...).first()],
    [Document.query.get(id)], [Document.query.filter_by(user_id=...).all()]. *)
Definition User_query_get (id : Z) : M (option User.t) :=
  gets (fun w => find (fun u => User.id u =? id) (users w)).

Definition User_query_filter_by_email (email : string) : M (option User.t) :=
  gets (fun w => find (fun u => String.eqb (User.email u) email) (users w)).

Definition Document_query_get (id : string) : M (option Document.t) :=
  gets (fun w => find (fun d => String.eqb (Document.id d) id) (documents w)).

Definition Document_query_filter_by_user_id (user_id : Z) : M (list Document.t) :=
  gets (fun w => filter (fun d => Document.user_id d = user_id) (documents w)).

Section App.
Context `{platform : Platform}.

Definition ensure_safe_filename (filename : string) : string :=
  secure_filename filename.

(** ** Authentication *)

(** [auth_header.split(" ", 1)[1].strip()]. *)
Definition bearer_token (auth_header : string) : string :=
  strip (after_first_space auth_header).

(** The body of [auth_required]'s wrapper up to [g.current_user = user]:
    the rejection it returns, or the user it resolves. *)
Definition authenticate (request : Request) : M (Response + User.t) :=
  let ip := remote_addr request in
  let! blocked := is_ip_blocked ip in
  if blocked then
    run! logging_warning (BlockedIpRequest ip) in
    ret (inl (jsonify_code (Error "Too many failed attempts. Try again later.") 429))
  else
    let auth_header := default EmptyString (headers request !! "Authorization") in
    if negb (startswith auth_header "Bearer ") then
      run! register_failed_attempt ip in
      ret (inl (jsonify_code (Error "Authentication required") 401))
    else
      let token := bearer_token auth_header in
      (* jwt.decode reads the clock itself, to check the dates *)
      let! now := time_time in
      match jwt_decode token JWT_SECRET_KEY now with
      | ExpiredSignatureError =>
          run! register_failed_attempt ip in
          ret (inl (jsonify_code (Error "Token expired") 401))
      | InvalidTokenError =>
          run! register_failed_attempt ip in
          ret (inl (jsonify_code (Error "Invalid token") 401))
      | Claims payload =>
          let! user := User_query_get (Payload.sub payload) in
          match user with
          | None =>
              run! register_failed_attempt ip in
              ret (inl (jsonify_code (Error "User not found") 401))
          | Some user => ret (inr user)
          end
      end.

(** [auth_required(fn)]: [fn] runs with [g.current_user] set, or not at all. *)
Definition auth_required (fn : User.t -> Request -> M Response)
    (request : Request) : M Response :=
  let! outcome := authenticate request in
  match outcome with
  | inl rejection => ret rejection
  | inr g_current_user => fn g_current_user request
  end.

(** ** Login *)

Definition login (request : Request) : M Response :=
  let ip := remote_addr request in
  let data := default ∅ (json request) in
  let email := data !! "email" in
  let password := data !! "password" in
  if not_ email || not_ password then
    ret (jsonify_code (Error "Email and password required") 400)
  else
    let email := default EmptyString email in
    let password := default EmptyString password in
    let! user := User_query_filter_by_email email in
    match user with
    | None =>
        run! register_failed_attempt ip in
        ret (jsonify_code (Error "Invalid credentials") 401)
    | Some user =>
        if negb (check_password_hash (User.password_hash user) password) then
          run! register_failed_attempt ip in
          ret (jsonify_code (Error "Invalid credentials") 401)
        else
          (* Reset failures on successful login *)
          run! modify (fun w =>
            set_FAILED_ATTEMPTS (<[ip := 0]> (FAILED_ATTEMPTS w)) w) in
          let! iat := time_time in
          let! now := time_time in
          let payload :=
            Payload.mk (User.id user) (User.email user) iat
                       (now + JWT_EXPIRATION_SECONDS) in
          let token := jwt_encode payload JWT_SECRET_KEY in
          ret (jsonify (LoginSuccessful (User.id user) (User.email user) token))
    end.

(** ** Upload document *)

Definition upload_document (g_current_user : User.t) (request : Request)
    : M Response :=
  match files request !! "file" with
  | None => ret (jsonify_code (Error "No file uploaded") 400)
  | Some file =>
      let (valid, file) := validate_pdf file in
      if negb valid then
        ret (jsonify_code (Error "Only PDF files are allowed") 400)
      else
        let safe_original := ensure_safe_filename (filename file) in
        let! timestamp := time_time in
        let stored_name :=
          (str (User.id g_current_user) ++ "_" ++ str timestamp ++ "_"
           ++ safe_original)%string in
        let save_path := (UPLOAD_FOLDER ++ "/" ++ stored_name)%string in
        run! file_save save_path file in
        (* the INSERT fills the two column defaults, then checks the key *)
        let! n := gets entropy in
        run! modify (set_entropy (S n)) in
        let! uploaded_at := time_time in
        let doc :=
          Document.mk (uuid4 n) (User.id g_current_user) safe_original
                      stored_name uploaded_at in
        let! clash := Document_query_get (Document.id doc) in
        match clash with
        | Some _ => ret (mkResponse 500 ErrorPage)
        | None =>
            run! modify (fun w => set_documents (documents w ++ [doc]) w) in
            ret (jsonify (FileUploaded (serialize_document doc)))
        end
  end.

(** ** List documents *)

Definition list_documents (g_current_user : User.t) (request : Request)
    : M Response :=
  let! docs := Document_query_filter_by_user_id (User.id g_current_user) in
  ret (jsonify (DocumentList (map serialize_document docs))).

(** ** Download document *)

(** [send_from_directory(directory, name, as_attachment=True)]: the file's
    bytes, or the framework's 404 when the folder has no such file.  This
    is the call for a plain request (no range or conditional headers) to a
    process whose working directory is the application's root path, so that
    the folder read here is the folder [file.save] writes; the properties
    below that involve a download speak of the state, not of this answer. *)
Definition send_from_directory (directory name : string) : M Response :=
  let! disk := gets uploads in
  match disk !! (directory ++ "/" ++ name)%string with
  | Some content => ret (mkResponse 200 (Attachment name content))
  | None => ret (mkResponse 404 ErrorPage)
  end.

Definition download_document (g_current_user : User.t) (request : Request)
    : M Response :=
  let ip := remote_addr request in
  let doc_id := args request !! "file_id" in
  if not_ doc_id then
    ret (jsonify_code (Error "file_id is required") 400)
  else
    let doc_id := default EmptyString doc_id in
    let! doc := Document_query_get doc_id in
    match doc with
    | None => ret (jsonify_code (Error "File not found") 404)
    | Some doc =>
        if negb (Document.user_id doc =? User.id g_current_user) then
          run! logging_warning
                 (UnauthorizedDownload (User.id g_current_user) doc_id ip) in
          run! register_failed_attempt ip in
          ret (jsonify_code (Error "Not authorized to download this file") 403)
        else
          send_from_directory UPLOAD_FOLDER (Document.stored_name doc)
    end.

(** The four routes of the application. *)
Inductive Route := PostLogin | PostUpload | GetDocuments | GetDownload.

Definition dispatch (route : Route) : Request -> M Response :=
  match route with
  | PostLogin => login
  | PostUpload => auth_required upload_document
  | GetDocuments => auth_required list_documents
  | GetDownload => auth_required download_document
  end.

End App.

(** ** A stand-in platform

    A small implementation of [Platform], to run the handlers on concrete
    requests.  A token is the claims in clear, dot-separated, followed by a
    keyed checksum.  [jwt_decode] recognises the tokens of the payloads in
    [known] by re-encoding them under the key, then checks the expiry. *)

Module Demo.

Definition checksum (text : string) : Z :=
  fold_left (fun acc c => (acc * 31 + Z.of_nat (nat_of_ascii c)) mod 1000003)
            (list_ascii_of_string text) 7.

Definition encode (payload : Payload.t) (key : string) : string :=
  let claims :=
    (str (Payload.sub payload) ++ "." ++ Payload.email payload ++ "."
     ++ str (Payload.iat payload) ++ "." ++ str (Payload.exp payload))%string in
  (claims ++ "." ++ str (checksum (key ++ claims)))%string.

Definition decode (known : list Payload.t) (token key : string) (now : Z)
    : Decoded :=
  match find (fun p => String.eqb (encode p key) token) known with
  | None => InvalidTokenError
  | Some payload =>
      if Payload.exp payload <=? now then ExpiredSignatureError
      else Claims payload
  end.

Definition uuid (n : nat) : string :=
  ("00000000-0000-4000-8000-" ++ str (100000000000 + Z.of_nat n))%string.

Definition platform (known : list Payload.t) : Platform := {|
  JWT_SECRET_KEY := "super-secret-demo-key";
  jwt_encode := encode;
  jwt_decode := decode known;
  check_password_hash := fun pwhash password =>
    String.eqb pwhash ("plain:" ++ password);
  secure_filename := fun name => name;
  uuid4 := uuid
|}.

(** The two mock users of [seed_mock_user]. *)
Definition alice : User.t :=
  User.mk 1 "test@student.com" "plain:password123" 0.
Definition bob : User.t :=
  User.mk 2 "test1@student.com" "plain:password123" 0.

Definition ip : string := "203.0.113.7".

(** A fresh process at time [now]: both users seeded, nothing else. *)
Definition boot (now : Z) (ticks : list nat) : World :=
  mkWorld ∅ ∅ [alice; bob] [] ∅ [] now ticks 0.

Definition login_request (email password : string) : Request :=
  mkRequest ip ∅ (Some {[ "email" := email; "password" := password ]}) ∅ ∅ ∅.

Definition bearer (token : string) : gmap string string :=
  {[ "Authorization" := ("Bearer " ++ token)%string ]}.

(** Run the same handler [n] times in a row. *)
Fixpoint repeat_request (n : nat) (handler : M Response) (w : World) : World :=
  match n with
  | O => w
  | S n' => repeat_request n' handler (handler w).2
  end.

(** The claims of the token [alice] gets by logging in at time 1000. *)
Definition alice_claims : Payload.t :=
  Payload.mk 1 "test@student.com" 1000 (1000 + JWT_EXPIRATION_SECONDS).

Definition bob_claims : Payload.t :=
  Payload.mk 2 "test1@student.com" 1000 (1000 + JWT_EXPIRATION_SECONDS).

(** The platform of the scenarios below: it knows these two tokens. *)
Definition app : Platform := platform [alice_claims; bob_claims].

Definition alice_token : string := encode alice_claims "super-secret-demo-key".
Definition bob_token : string := encode bob_claims "super-secret-demo-key".

Definition good_login : M Response :=
  @login app (login_request "test@student.com" "password123").
Definition failed_login : M Response :=
  @login app (login_request "test@student.com" "wrong").

(** A small PDF named [hw1.pdf]. *)
Definition hw1 : FileStorage :=
  mkFile "application/pdf" "hw1.pdf" [x25; x50; x44; x46; x2d; x31; x2e; x34] 0.

(** The token of a login response. *)
Definition token_of (response : Response) : string :=
  match body response with
  | LoginSuccessful _ _ token => token
  | _ => EmptyString
  end.

(** A protected request carrying [token], with its query string and files. *)
Definition protected_request (token : string) (args : gmap string string)
    (files : gmap string FileStorage) : Request :=
  mkRequest ip (bearer token) None args ∅ files.

(** [alice] has logged in at time 1000 and uploaded [hw1.pdf]. *)
Definition with_upload : World :=
  (@dispatch app PostUpload
     (protected_request alice_token ∅ {[ "file" := hw1 ]})
     (good_login (boot 1000 [])).2).2.

(** The id that upload got. *)
Definition hw1_id : string := uuid 0.

End Demo.

(** ** Mock user seeding *)

Definition set_users (u : list User.t) (w : World) : World :=
  mkWorld (FAILED_ATTEMPTS w) (BLOCKED_IPS w) u (documents w) (uploads w)
          (security_log w) (clock w) (ticks w) (entropy w).

(** The id an INSERT gives a [User] row, an integer primary key: one more
    than the largest id in the table, 1 in an empty table. *)
Definition next_user_id (table : list User.t) : Z :=
  1 + foldr Z.max 0 (map User.id table).

(** The INSERT of one [User(email=..., password_hash=...)]: the key and the
    [created_at] default are filled in. *)
Definition insert_user (email password_hash : string) : M unit :=
  let! now := time_time in
  modify (fun w =>
    set_users (users w ++ [User.mk (next_user_id (users w)) email password_hash now]) w).

(** [db.session.commit()] with the added users pending, in the order added. *)
Fixpoint commit_users (pending : list (string * string)) : M unit :=
  match pending with
  | [] => ret tt
  | (email, password_hash) :: rest =>
      run! insert_user email password_hash in
      commit_users rest
  end.

Definition mock_users : list (string * string) :=
  [("test@student.com", "password123"); ("test1@student.com", "password123")].

Section Seeding.
(** werkzeug's [generate_password_hash(password)], as a function of the salt
    it draws. *)
Context (generate_password_hash : string -> string -> string).

(** [seed_mock_user()]; [salt] is the salt drawn for the user of an e-mail.
    The loop adds a user for each mock e-mail that is not in [existing], and
    the commit, if any was added, inserts them. *)
Definition seed_mock_user (salt : string -> string) : M unit :=
  let! existing := gets (fun w => map User.email (users w)) in
  let added :=
    omap (fun '(email, pwd) =>
            if negb (bool_decide (email ∈ existing))
            then Some (email, generate_password_hash (salt email) pwd)
            else None)
         mock_users in
  commit_users added.

End Seeding.

(** ** Consistency of the registry *)

(** The path of a document's file in the upload folder. *)
Definition stored_path (doc : Document.t) : string :=
  (UPLOAD_FOLDER ++ "/" ++ Document.stored_name doc)%string.

(** No two records of the [Document] table share an id. *)
Definition document_ids_unique (w : World) : Prop :=
  NoDup (map Document.id (documents w)).

(** Every record of the [Document] table has a file in the upload folder. *)
Definition document_files_present (w : World) : Prop :=
  forall doc, doc ∈ documents w -> is_Some (uploads w !! stored_path doc).

(** Every record of the [Document] table is owned by a user of the [User]
    table. *)
Definition document_owners_exist (w : World) : Prop :=
  forall doc, doc ∈ documents w ->
    exists user, user ∈ users w /\ User.id user = Document.user_id doc.

(** [n] failures in a row recorded for one address. *)
Definition failures_in_a_row (n : nat) (ip : string) (w : World) : World :=
  Nat.iter n (fun w => (register_failed_attempt ip w).2) w.

(** A stand-in for [generate_password_hash], matching [Demo.platform]. *)
Definition demo_hash (salt password : string) : string :=
  ("plain:" ++ password)%string.

(** ** Relations between the state before and after a step *)

(** A step keeps a relation when the state it leaves is related to the state
    it found. *)
Definition keeps {A} (R : relation World) (m : M A) : Prop :=
  forall w, R w (m w).2.

(** The [User] table is the same. *)
Definition same_users : relation World :=
  fun w w' => users w' = users w.

(** The [Document] table is the same. *)
Definition same_documents : relation World :=
  fun w w' => documents w' = documents w.

(** The upload folder is the same. *)
Definition same_uploads : relation World :=
  fun w w' => uploads w' = uploads w.

(** The security log has only grown at its end. *)
Definition log_extended : relation World :=
  fun w w' => exists new, security_log w' = (security_log w ++ new)%list.

(** The throttle entries of address [a] are the same. *)
Definition same_throttle_at (a : string) : relation World :=
  fun w w' =>
    FAILED_ATTEMPTS w' !! a = FAILED_ATTEMPTS w !! a /\
    BLOCKED_IPS w' !! a = BLOCKED_IPS w !! a.

(** * Properties *)

(** ** The throttle *)

Lemma is_ip_blocked_unfold ip w :
  is_ip_blocked ip w =
  match BLOCKED_IPS w !! ip with
  | Some until =>
      let now := clock w + Z.of_nat (hd 0%nat (ticks w)) in
      let w1 := set_clock now (tl (ticks w)) w in
      if now <? until then (true, w1)
      else (false, set_BLOCKED_IPS (delete ip (BLOCKED_IPS w1)) w1)
  | None => (false, w)
  end.
Proof.
  unfold is_ip_blocked, bind, gets. simpl.
  destruct (BLOCKED_IPS w !! ip) as [until|]; [|reflexivity].
  unfold time_time, bind, modify, ret. simpl.
  destruct (_ <? until); reflexivity.
Qed.

Lemma failures_insert_eq ip v m w :
  failures (set_FAILED_ATTEMPTS (<[ip := v]> m) w) ip = v.
Proof. unfold failures. simpl. by rewrite lookup_insert_eq. Qed.

Lemma failures_insert_ne ip ip' v m w :
  ip <> ip' ->
  failures (set_FAILED_ATTEMPTS (<[ip := v]> m) w) ip' = default 0 (m !! ip').
Proof. intros Hne. unfold failures. simpl. by rewrite lookup_insert_ne. Qed.

Lemma register_failed_attempt_unfold ip w :
  register_failed_attempt ip w =
  let count := failures w ip + 1 in
  let w1 := set_FAILED_ATTEMPTS (<[ip := count]> (FAILED_ATTEMPTS w)) w in
  if BLOCK_THRESHOLD <=? count then
    let now := clock w + Z.of_nat (hd 0%nat (ticks w)) in
    (tt, set_security_log (security_log w ++ [IpBlocked ip])
           (set_BLOCKED_IPS (<[ip := now + BLOCK_DURATION]> (BLOCKED_IPS w))
              (set_clock now (tl (ticks w)) w1)))
  else (tt, w1).
Proof.
  unfold register_failed_attempt, bind, gets, modify. simpl.
  rewrite failures_insert_eq.
  destruct (BLOCK_THRESHOLD <=? failures w ip + 1); reflexivity.
Qed.

(** ** C9: the failure counter across a block *)

Lemma is_ip_blocked_FAILED_ATTEMPTS ip w :
  FAILED_ATTEMPTS (is_ip_blocked ip w).2 = FAILED_ATTEMPTS w.
Proof.
  rewrite is_ip_blocked_unfold.
  destruct (BLOCKED_IPS w !! ip) as [until|]; [|reflexivity].
  simpl. destruct (_ <? until); reflexivity.
Qed.

Lemma register_failed_attempt_failures ip w :
  failures (register_failed_attempt ip w).2 ip = failures w ip + 1.
Proof.
  rewrite register_failed_attempt_unfold. simpl.
  destruct (BLOCK_THRESHOLD <=? failures w ip + 1); simpl;
    unfold failures; simpl; by rewrite lookup_insert_eq.
Qed.

Lemma register_failed_attempt_blocks ip w :
  BLOCK_THRESHOLD <= failures w ip + 1 ->
  let w' := (register_failed_attempt ip w).2 in
  clock w' = clock w + Z.of_nat (hd 0%nat (ticks w)) /\
  BLOCKED_IPS w' !! ip = Some (clock w' + BLOCK_DURATION).
Proof.
  intros Hcount. rewrite register_failed_attempt_unfold. simpl.
  destruct (Z.leb_spec BLOCK_THRESHOLD (failures w ip + 1)) as [_|Hlt]; [|lia].
  simpl. split; [reflexivity|]. by rewrite lookup_insert_eq.
Qed.

Lemma is_ip_blocked_active ip w until :
  BLOCKED_IPS w !! ip = Some until ->
  clock w + Z.of_nat (hd 0%nat (ticks w)) < until ->
  (is_ip_blocked ip w).1 = true.
Proof.
  intros Hentry Hnow. rewrite is_ip_blocked_unfold, Hentry. simpl.
  destruct (Z.ltb_spec (clock w + Z.of_nat (hd 0%nat (ticks w))) until); [reflexivity|lia].
Qed.


(** ** C6: the upload validator *)

Lemma endswith_spec (s p : string) :
  endswith s p = true <-> exists stem, s = (stem ++ p)%string.
Proof.
  induction s as [|c s IH]; cbn [endswith].
  - rewrite orb_false_r, String.eqb_eq. split.
    + intros <-. by exists EmptyString.
    + intros [[|c stem] Hstem]; simpl in Hstem; [done|discriminate].
  - rewrite orb_true_iff, String.eqb_eq, IH. split.
    + intros [<-|[stem ->]].
      * by exists EmptyString.
      * by exists (String c stem).
    + intros [[|c' stem] Hstem]; simpl in Hstem.
      * by left.
      * injection Hstem as -> ->. right. by exists stem.
Qed.

Lemma lower_app (a b : string) :
  lower (a ++ b) = (lower a ++ lower b)%string.
Proof. induction a as [|c a IH]; simpl; [done|by rewrite IH]. Qed.

Lemma lower_eq_app (s a b : string) :
  lower s = (a ++ b)%string ->
  exists sa sb, s = (sa ++ sb)%string /\ lower sa = a /\ lower sb = b.
Proof.
  revert s. induction a as [|c a IH]; intros s Hs; simpl in Hs.
  - by exists EmptyString, s.
  - destruct s as [|c' s]; simpl in Hs; [discriminate|].
    injection Hs as Hc Hs. destruct (IH s Hs) as (sa & sb & -> & <- & <-).
    exists (String c' sa), sb. simpl. by rewrite Hc.
Qed.

(** The extension test of [validate_pdf], read as a statement on the name:
    it ends with four characters that are [.pdf] up to case. *)
Lemma extension_check_spec (name : string) :
  endswith (lower name) ".pdf" = true <->
  exists stem ext, name = (stem ++ ext)%string /\ lower ext = ".pdf"%string.
Proof.
  rewrite endswith_spec. split.
  - intros [stem' Hlow]. destruct (lower_eq_app _ _ _ Hlow) as (sa & sb & -> & _ & Hext).
    by exists sa, sb.
  - intros (stem & ext & -> & Hext). exists (lower stem).
    by rewrite lower_app, Hext.
Qed.

(** C6.  On an uploaded part whose stream is at its start, [validate_pdf]
    answers [True] exactly when the three checks hold together: the declared
    MIME type is [application/pdf], the first four bytes of the content are
    [%PDF], and the file name ends in [.pdf] up to case.  So a content that
    does not start with the signature is refused whatever its declared type
    and name; and after an accepting check the file object is as it was,
    its read position at the start. *)
Theorem validate_pdf_requires_all_three (file : FileStorage) :
  position file = 0%nat ->
  ((validate_pdf file).1 = true <->
     mimetype file = "application/pdf"%string /\
     take 4 (stream file) = PDF_MAGIC /\
     exists stem ext,
       filename file = (stem ++ ext)%string /\ lower ext = ".pdf"%string) /\
  (take 4 (stream file) <> PDF_MAGIC -> (validate_pdf file).1 = false) /\
  ((validate_pdf file).1 = true ->
     position (validate_pdf file).2 = 0%nat /\ (validate_pdf file).2 = file).
Proof.
  destruct file as [mime name content pos]. simpl. intros ->.
  rewrite <- extension_check_spec.
  unfold validate_pdf, file_read, file_seek. simpl.
  change (drop 0 content) with content.
  destruct (String.eqb_spec mime "application/pdf") as [->|Hmime]; simpl.
  - destruct (bool_decide_reflect (take 4 content = PDF_MAGIC)) as [Hmagic|Hmagic];
      simpl.
    + destruct (endswith (lower name) ".pdf") eqn:Hext; simpl.
      * repeat split; auto. intros Hne. by destruct Hne.
      * repeat split; try discriminate; intuition discriminate.
    + repeat split; try discriminate; intuition.
  - repeat split; try discriminate; intuition.
Qed.

(** C6, witness: [hw1.PDF], declared as a PDF and starting with [%PDF]. *)
Lemma validate_pdf_requires_all_three_witness :
  (validate_pdf (mkFile "application/pdf" "hw1.PDF" [x25; x50; x44; x46; x2d] 0)).1
  = true.
Proof.
  apply (validate_pdf_requires_all_three
           (mkFile "application/pdf" "hw1.PDF" [x25; x50; x44; x46; x2d] 0)
           eq_refl).
  split; [reflexivity|]. split; [reflexivity|].
  exists "hw1"%string, ".PDF"%string. split; reflexivity.
Defined.

(** ** The gateway *)

Lemma is_ip_blocked_frame ip w :
  let w' := (is_ip_blocked ip w).2 in
  users w' = users w /\ documents w' = documents w /\ uploads w' = uploads w /\
  security_log w' = security_log w.
Proof.
  rewrite is_ip_blocked_unfold.
  destruct (BLOCKED_IPS w !! ip) as [until|]; [|done].
  simpl. by destruct (_ <? until).
Qed.

Lemma is_ip_blocked_false ip w :
  (is_ip_blocked ip w).1 = false ->
  BLOCKED_IPS (is_ip_blocked ip w).2 = delete ip (BLOCKED_IPS w).
Proof.
  rewrite is_ip_blocked_unfold.
  destruct (BLOCKED_IPS w !! ip) as [until|] eqn:Hentry.
  - simpl. destruct (_ <? until); [discriminate|done].
  - intros _. simpl. symmetry. by apply delete_id.
Qed.

Section Gateway.
Context `{platform : Platform}.

(** What a successful pass through the gateway went through. *)
Lemma authenticate_inr request w user w' :
  authenticate request w = (inr user, w') ->
  let w1 := (is_ip_blocked (remote_addr request) w).2 in
  (is_ip_blocked (remote_addr request) w).1 = false /\
  startswith (default EmptyString (headers request !! "Authorization")) "Bearer " = true /\
  (exists payload,
     jwt_decode (bearer_token (default EmptyString (headers request !! "Authorization")))
                JWT_SECRET_KEY (time_time w1).1 = Claims payload /\
     find (fun u => User.id u =? Payload.sub payload) (users w) = Some user) /\
  w' = (time_time w1).2.
Proof.
  unfold authenticate, bind.
  pose proof (is_ip_blocked_frame (remote_addr request) w) as (Husers & _).
  destruct (is_ip_blocked (remote_addr request) w) as [[|] w1]; simpl in *.
  { discriminate. }
  destruct (startswith _ "Bearer "); simpl.
  2:{ destruct (register_failed_attempt _ _). discriminate. }
  destruct (jwt_decode _ _ _) as [payload| |]; simpl.
  2,3: destruct (register_failed_attempt _ _); discriminate.
  unfold User_query_get, gets. simpl. rewrite Husers.
  destruct (find _ (users w)) as [u|] eqn:Hfind; simpl.
  2:{ destruct (register_failed_attempt _ _). discriminate. }
  intros [= -> <-]. repeat split; eauto.
Qed.

(** What it leaves behind: only the clock has moved, and an expired entry of
    the caller's address is gone. *)
Lemma authenticate_inr_frame request w user w' :
  authenticate request w = (inr user, w') ->
  FAILED_ATTEMPTS w' = FAILED_ATTEMPTS w /\
  BLOCKED_IPS w' = delete (remote_addr request) (BLOCKED_IPS w) /\
  users w' = users w /\ documents w' = documents w /\ uploads w' = uploads w /\
  security_log w' = security_log w.
Proof.
  intros Hauth. destruct (authenticate_inr _ _ _ _ Hauth) as (Hfree & _ & _ & ->).
  pose proof (is_ip_blocked_frame (remote_addr request) w) as (? & ? & ? & ?).
  pose proof (is_ip_blocked_FAILED_ATTEMPTS (remote_addr request) w).
  pose proof (is_ip_blocked_false _ _ Hfree).
  simpl. auto 10.
Qed.

Lemma auth_required_inr fn request w user w1 :
  authenticate request w = (inr user, w1) ->
  auth_required fn request w = fn user request w1.
Proof. intros Hauth. unfold auth_required, bind. by rewrite Hauth. Qed.

Lemma auth_required_inl fn request w rejection w1 :
  authenticate request w = (inl rejection, w1) ->
  auth_required fn request w = (rejection, w1).
Proof. intros Hauth. unfold auth_required, bind. by rewrite Hauth. Qed.

(** The gateway reads two things of a request: the address and the
    [Authorization] header. *)
Lemma authenticate_ext request request' w :
  remote_addr request' = remote_addr request ->
  headers request' !! "Authorization" = headers request !! "Authorization" ->
  authenticate request' w = authenticate request w.
Proof. intros Haddr Hauth. unfold authenticate. by rewrite Haddr, Hauth. Qed.

(** The statuses a rejection by the gateway can carry. *)
Lemma authenticate_inl_status request w rejection w' :
  authenticate request w = (inl rejection, w') ->
  status rejection = 429 \/ status rejection = 401.
Proof.
  unfold authenticate, bind.
  destruct (is_ip_blocked _ w) as [[|] w1]; simpl.
  { intros [= <- _]. by left. }
  destruct (startswith _ "Bearer "); simpl.
  2:{ destruct (register_failed_attempt _ _). intros [= <- _]. by right. }
  destruct (jwt_decode _ _ _) as [payload| |]; simpl.
  2,3: destruct (register_failed_attempt _ _); intros [= <- _]; by right.
  unfold User_query_get, gets. simpl.
  destruct (find _ _); simpl; [discriminate|].
  destruct (register_failed_attempt _ _). intros [= <- _]. by right.
Qed.

End Gateway.

(** ** Login *)

Section Login.
Context `{platform : Platform}.

(** The only way [login] answers 200: the account exists, the password
    matches, the counter of the address is zeroed, and the clock is read
    twice, once for [iat] and once for [exp]. *)
Lemma login_200 request w response w' :
  login request w = (response, w') ->
  status response = 200 ->
  exists user,
    let ip := remote_addr request in
    let w0 := set_FAILED_ATTEMPTS (<[ip := 0]> (FAILED_ATTEMPTS w)) w in
    let iat := (time_time w0).1 in
    let now := (time_time (time_time w0).2).1 in
    let payload :=
      Payload.mk (User.id user) (User.email user) iat
                 (now + JWT_EXPIRATION_SECONDS) in
    In user (users w) /\
    response = jsonify (LoginSuccessful (User.id user) (User.email user)
                          (jwt_encode payload JWT_SECRET_KEY)) /\
    w' = (time_time (time_time w0).2).2.
Proof.
  unfold login, bind.
  destruct (not_ _ || not_ _); simpl.
  { intros [= <- _]. discriminate. }
  unfold User_query_filter_by_email, gets. simpl.
  destruct (find _ (users w)) as [user|] eqn:Hfind; simpl.
  2:{ destruct (register_failed_attempt _ _). intros [= <- _]. discriminate. }
  destruct (check_password_hash _ _); simpl.
  2:{ destruct (register_failed_attempt _ _). intros [= <- _]. discriminate. }
  intros [= <- <-] _. exists user. simpl.
  apply find_some in Hfind as [Hin _]. auto.
Qed.

(** [login] never answers 429: it does not consult the throttle. *)
Lemma login_status request w :
  let code := status (login request w).1 in
  code = 200 \/ code = 400 \/ code = 401.
Proof.
  unfold login, bind.
  destruct (not_ _ || not_ _); simpl; [auto|].
  unfold User_query_filter_by_email, gets. simpl.
  destruct (find _ (users w)) as [user|]; simpl.
  2:{ destruct (register_failed_attempt _ _). simpl. auto. }
  destruct (check_password_hash _ _); simpl; [auto|].
  destruct (register_failed_attempt _ _). simpl. auto.
Qed.

End Login.

(** ** C4: listing *)

Section Claims.
Context `{platform : Platform}.

(** C4.  For a requester the gateway resolved to user [A], the list
    operation answers with the serialised documents of the registry whose
    [user_id] is [A]'s id, in the registry's order: a document is listed
    exactly when it is in the registry and owned by [A], so no document
    owned by another user [B] is ever listed. *)
Theorem list_documents_only_own (request : Request) (w w1 : World) (A : User.t) :
  authenticate request w = (inr A, w1) ->
  let own := filter (fun d => Document.user_id d = User.id A) (documents w) in
  auth_required list_documents request w
    = (jsonify (DocumentList (map serialize_document own)), w1) /\
  (forall d, d ∈ own <-> d ∈ documents w /\ Document.user_id d = User.id A) /\
  (forall (B : User.t) d,
     User.id B <> User.id A -> Document.user_id d = User.id B -> d ∉ own).
Proof.
  intros Hauth own.
  destruct (authenticate_inr_frame _ _ _ _ Hauth) as (_ & _ & _ & Hdocs & _).
  split; [|split].
  - rewrite (auth_required_inr _ _ _ _ _ Hauth).
    unfold list_documents, Document_query_filter_by_user_id, bind, gets, ret.
    simpl. by rewrite Hdocs.
  - intros d. unfold own. rewrite list_elem_of_filter. tauto.
  - intros B d Hne Howner Hin. unfold own in Hin.
    apply list_elem_of_filter in Hin as [Hown _]. congruence.
Qed.

(** ** C10: a rejected upload *)

(** C10.  When the gateway has let the request through and the upload is
    refused, because the request has no part named [file] or because
    [validate_pdf] answers [False], the response is the 400 error and the
    state is the one the gateway left: the handler has saved and committed
    nothing, so the [User] and [Document] tables and the upload folder are
    as before the request. *)
Theorem rejected_upload_changes_nothing (request : Request) (w w1 : World)
    (user : User.t) :
  authenticate request w = (inr user, w1) ->
  (files request !! "file" = None ->
   auth_required upload_document request w
     = (jsonify_code (Error "No file uploaded") 400, w1)) /\
  (forall file,
     files request !! "file" = Some file ->
     (validate_pdf file).1 = false ->
     auth_required upload_document request w
       = (jsonify_code (Error "Only PDF files are allowed") 400, w1)) /\
  users w1 = users w /\ documents w1 = documents w /\ uploads w1 = uploads w.
Proof.
  intros Hauth.
  destruct (authenticate_inr_frame _ _ _ _ Hauth) as (_ & _ & ? & ? & ? & _).
  rewrite (auth_required_inr _ _ _ _ _ Hauth).
  repeat split; auto.
  - intros Hnone. unfold upload_document. by rewrite Hnone.
  - intros file Hfile Hbad. unfold upload_document. rewrite Hfile.
    destruct (validate_pdf file) as [valid file']. simpl in Hbad. by subst valid.
Qed.

End Claims.

(** ** What the handlers do to the tables *)

Lemma register_failed_attempt_frame ip w :
  let w' := (register_failed_attempt ip w).2 in
  users w' = users w /\ documents w' = documents w /\ uploads w' = uploads w.
Proof.
  rewrite register_failed_attempt_unfold. simpl.
  by destruct (BLOCK_THRESHOLD <=? failures w ip + 1).
Qed.

Lemma register_failed_attempt_log ip w :
  security_log (register_failed_attempt ip w).2 =
  (security_log w ++
   if BLOCK_THRESHOLD <=? failures w ip + 1 then [IpBlocked ip] else [])%list.
Proof.
  rewrite register_failed_attempt_unfold. simpl.
  destruct (BLOCK_THRESHOLD <=? failures w ip + 1); simpl; [done|].
  by rewrite app_nil_r.
Qed.

(** A handler step that ends by recording a failure and answering. *)
Lemma fail_then_answer {A} ip (answer : A) w :
  (run! register_failed_attempt ip in ret answer) w
  = (answer, (register_failed_attempt ip w).2).
Proof. unfold bind, ret. by destruct (register_failed_attempt ip w). Qed.

Lemma register_failed_attempt_documents ip w u w' :
  register_failed_attempt ip w = (u, w') -> documents w' = documents w.
Proof.
  intros Hrun. replace w' with (register_failed_attempt ip w).2 by (by rewrite Hrun).
  apply register_failed_attempt_frame.
Qed.

Section Tables.
Context `{platform : Platform}.

Lemma authenticate_documents request w :
  documents (authenticate request w).2 = documents w.
Proof.
  unfold authenticate, bind.
  pose proof (is_ip_blocked_frame (remote_addr request) w) as (_ & Hdocs & _).
  destruct (is_ip_blocked (remote_addr request) w) as [[|] w1]; simpl in *.
  { done. }
  destruct (startswith _ "Bearer "); simpl.
  2:{ destruct (register_failed_attempt _ _) as [[] w2] eqn:Hrun.
      apply register_failed_attempt_documents in Hrun. simpl. congruence. }
  destruct (jwt_decode _ _ _) as [payload| |]; simpl.
  2,3: destruct (register_failed_attempt _ _) as [[] w2] eqn:Hrun;
       apply register_failed_attempt_documents in Hrun; simpl in *; congruence.
  unfold User_query_get, gets. simpl.
  destruct (find _ _); simpl; [done|].
  destruct (register_failed_attempt _ _) as [[] w2] eqn:Hrun.
  apply register_failed_attempt_documents in Hrun. simpl in *. congruence.
Qed.

Lemma login_documents request w :
  documents (login request w).2 = documents w.
Proof.
  unfold login, bind.
  destruct (not_ _ || not_ _); simpl; [done|].
  unfold User_query_filter_by_email, gets. simpl.
  destruct (find _ (users w)) as [user|]; simpl.
  2:{ destruct (register_failed_attempt _ _) as [[] w2] eqn:Hrun.
      by apply register_failed_attempt_documents in Hrun. }
  destruct (check_password_hash _ _); simpl; [done|].
  destruct (register_failed_attempt _ _) as [[] w2] eqn:Hrun.
  by apply register_failed_attempt_documents in Hrun.
Qed.

(** A successful upload adds one record, owned by [g.current_user]; any
    other outcome of the handler adds none. *)
Lemma upload_document_documents user request w :
  let response := (upload_document user request w).1 in
  let w' := (upload_document user request w).2 in
  (status response = 200 /\
   exists doc,
     documents w' = (documents w ++ [doc])%list /\
     Document.user_id doc = User.id user /\
     response = jsonify (FileUploaded (serialize_document doc))) \/
  (status response <> 200 /\ documents w' = documents w).
Proof.
  unfold upload_document.
  destruct (files request !! "file") as [file|]; simpl.
  2:{ right. split; [discriminate|done]. }
  destruct (validate_pdf file) as [[|] file']; simpl.
  2:{ right. split; [discriminate|done]. }
  unfold bind, time_time, file_save, modify, gets, Document_query_get, ret. simpl.
  destruct (find _ (documents w)); simpl.
  - right. split; [discriminate|done].
  - left. split; [done|]. eexists. repeat split.
Qed.

Lemma download_document_documents user request w :
  documents (download_document user request w).2 = documents w.
Proof.
  unfold download_document, bind.
  destruct (not_ _); simpl; [done|].
  unfold Document_query_get, gets. simpl.
  destruct (find _ (documents w)) as [doc|]; simpl; [|done].
  destruct (negb _); simpl.
  - unfold logging_warning, modify.
    destruct (register_failed_attempt _ _) as [[] w2] eqn:Hrun.
    by apply register_failed_attempt_documents in Hrun.
  - unfold send_from_directory, bind, gets, ret. simpl.
    by destruct (uploads w !! _).
Qed.

(** No route rewrites the [Document] table: it only ever grows at its end. *)
Lemma dispatch_documents route request w :
  exists new, documents (dispatch route request w).2 = (documents w ++ new)%list.
Proof.
  assert (Hwrap : forall fn,
    (forall user w1, exists new,
       documents (fn user request w1).2 = (documents w1 ++ new)%list) ->
    exists new,
      documents (auth_required fn request w).2 = (documents w ++ new)%list).
  { intros fn Hfn. unfold auth_required, bind.
    pose proof (authenticate_documents request w) as Hdocs.
    destruct (authenticate request w) as [[rejection|user] w1]; simpl in *.
    - exists []. by rewrite app_nil_r.
    - destruct (Hfn user w1) as [new Hnew]. exists new. by rewrite Hnew, Hdocs. }
  destruct route; simpl.
  - exists []. by rewrite app_nil_r, login_documents.
  - apply Hwrap. intros user w1.
    destruct (upload_document_documents user request w1)
      as [(_ & doc & -> & _)|(_ & ->)].
    + by exists [doc].
    + exists []. by rewrite app_nil_r.
  - apply Hwrap. intros user w1. exists []. by rewrite app_nil_r.
  - apply Hwrap. intros user w1. exists [].
    by rewrite app_nil_r, download_document_documents.
Qed.

End Tables.

(** ** C3: downloading a document of another user, or none *)

Section Ownership.
Context `{platform : Platform}.


End Ownership.

(** ** C5: the owner of an uploaded document *)

Section Upload.
Context `{platform : Platform}.

(** C5.  When an upload succeeds, the gateway has verified the request's
    token and resolved its subject to a user, the registry has grown by one
    record, and the [user_id] of that record is that user's id, the subject
    of the token.  The owner depends on the request through the gateway's
    two inputs only, the address and the [Authorization] header: another
    request with the same two, whatever its form fields, file name, file and
    other headers, creates a record with the same owner.  And no route
    rewrites a record once it is in the registry: after any request the
    [Document] table is the old table with records added at its end. *)
Theorem upload_owner_is_authenticated_caller (request : Request) (w w' : World)
    (response : Response) :
  auth_required upload_document request w = (response, w') ->
  status response = 200 ->
  (exists user w1 payload doc,
     authenticate request w = (inr user, w1) /\
     jwt_decode
       (bearer_token (default EmptyString (headers request !! "Authorization")))
       JWT_SECRET_KEY (clock w1) = Claims payload /\
     User.id user = Payload.sub payload /\
     documents w' = (documents w ++ [doc])%list /\
     Document.user_id doc = User.id user /\
     (forall request' response' w'',
        remote_addr request' = remote_addr request ->
        headers request' !! "Authorization" = headers request !! "Authorization" ->
        auth_required upload_document request' w = (response', w'') ->
        status response' = 200 ->
        exists doc',
          documents w'' = (documents w ++ [doc'])%list /\
          Document.user_id doc' = Document.user_id doc)) /\
  (forall route request0 w0,
     exists new,
       documents (dispatch route request0 w0).2 = (documents w0 ++ new)%list).
Proof.
  intros Hrun Hok. split; [|apply dispatch_documents].
  destruct (authenticate request w) as [[rejection|user] w1] eqn:Hauth.
  { rewrite (auth_required_inl _ _ _ _ _ Hauth) in Hrun.
    injection Hrun as <- _.
    destruct (authenticate_inl_status _ _ _ _ Hauth) as [Hs|Hs];
      rewrite Hs in Hok; discriminate. }
  destruct (authenticate_inr _ _ _ _ Hauth) as (_ & _ & (payload & Hjwt & Hfind) & Hw1).
  destruct (authenticate_inr_frame _ _ _ _ Hauth) as (_ & _ & _ & Hdocs & _).
  assert (Howner : forall request' response' w'',
    authenticate request' w = (inr user, w1) ->
    auth_required upload_document request' w = (response', w'') ->
    status response' = 200 ->
    exists doc', documents w'' = (documents w ++ [doc'])%list /\
                 Document.user_id doc' = User.id user).
  { intros request' response' w'' Hauth' Hrun' Hok'.
    rewrite (auth_required_inr _ _ _ _ _ Hauth') in Hrun'.
    destruct (upload_document_documents user request' w1)
      as [(_ & doc' & Hgrow & Hown & _)|(Hbad & _)].
    - rewrite Hrun' in Hgrow. simpl in Hgrow. exists doc'.
      by rewrite Hgrow, Hdocs.
    - rewrite Hrun' in Hbad. simpl in Hbad. done. }
  destruct (Howner request response w' Hauth Hrun Hok) as (doc & Hgrow & Hown).
  exists user, w1, payload, doc. repeat split; auto.
  - rewrite Hw1 at 1. exact Hjwt.
  - apply find_some in Hfind as [_ Heq]. by apply Z.eqb_eq in Heq.
  - intros request' response' w'' Haddr Hheader Hrun' Hok'.
    rewrite Hown. apply (Howner request' response' w''); auto.
    by rewrite (authenticate_ext request request' w).
Qed.

End Upload.

(** ** C8: expired and invalid tokens *)

Section Rejections.
Context `{platform : Platform}.

(** C8 (as amended).  On a request that the throttle lets through and that
    carries a bearer token, an expired token and an otherwise invalid token
    are rejected alike in status and in effect: the answer is 401, the
    handler does not run, and one failure is recorded for the address.  The
    bodies differ: [Token expired] for the one, [Invalid token] for the
    other. *)
Theorem expired_and_invalid_token_responses
    (fn : User.t -> Request -> M Response) (request : Request) (w : World) :
  let ip := remote_addr request in
  let auth_header := default EmptyString (headers request !! "Authorization") in
  let w1 := (is_ip_blocked ip w).2 in
  let verdict :=
    jwt_decode (bearer_token auth_header) JWT_SECRET_KEY (time_time w1).1 in
  let w' := (register_failed_attempt ip (time_time w1).2).2 in
  (is_ip_blocked ip w).1 = false ->
  startswith auth_header "Bearer " = true ->
  (verdict = ExpiredSignatureError ->
   auth_required fn request w = (jsonify_code (Error "Token expired") 401, w')) /\
  (verdict = InvalidTokenError ->
   auth_required fn request w = (jsonify_code (Error "Invalid token") 401, w')) /\
  failures w' ip = failures w ip + 1 /\
  Error "Token expired" <> Error "Invalid token".
Proof.
  intros ip auth_header w1 verdict w' Hfree Hbearer.
  assert (Hstep : forall rejection,
    (verdict = ExpiredSignatureError \/ verdict = InvalidTokenError) ->
    rejection = match verdict with
                | ExpiredSignatureError => jsonify_code (Error "Token expired") 401
                | _ => jsonify_code (Error "Invalid token") 401
                end ->
    auth_required fn request w = (rejection, w')).
  { intros rejection Hverdict ->.
    apply auth_required_inl. unfold authenticate. unfold bind at 1.
    fold ip. destruct (is_ip_blocked ip w) as [blocked w0] eqn:Hblocked.
    simpl in Hfree. subst blocked. fold auth_header. rewrite Hbearer. simpl.
    unfold bind at 1. subst w1 verdict w'. simpl in *.
    destruct Hverdict as [Hv|Hv]; rewrite Hv; apply fail_then_answer. }
  repeat split.
  - intros Hv. apply Hstep; [by left|by rewrite Hv].
  - intros Hv. apply Hstep; [by right|by rewrite Hv].
  - unfold w'. rewrite register_failed_attempt_failures. unfold failures. simpl.
    unfold w1. by rewrite is_ip_blocked_FAILED_ATTEMPTS.
  - discriminate.
Qed.

End Rejections.

(** * The properties on concrete requests *)

(** ** C1 and C7: two places where [login] falls short *)

(** C1 (what the code does).  Ten failed logins from one address at time
    1000 leave its counter at 10 and block it until 1060.  The throttle
    reports the address blocked, yet the next login from it is not answered
    429: [login] never calls [is_ip_blocked].  With the right password it is
    answered 200 with a token, and with a wrong one 401 after the credential
    check. *)
Theorem login_answers_a_blocked_address :
  let w := Demo.repeat_request 10 Demo.failed_login (Demo.boot 1000 []) in
  failures w Demo.ip = 10 /\
  BLOCKED_IPS w !! Demo.ip = Some (1000 + BLOCK_DURATION) /\
  (is_ip_blocked Demo.ip w).1 = true /\
  (Demo.good_login w).1
    = jsonify (LoginSuccessful 1 "test@student.com" Demo.alice_token) /\
  (Demo.failed_login w).1 = jsonify_code (Error "Invalid credentials") 401.
Proof. vm_compute. repeat split. Qed.

(** C7 (what the code does).  [login] reads the clock once for [iat] and
    once more for [exp].  When a second boundary falls between the two
    readings, here 999 and 1000, the token carries [iat = 999] and
    [exp = 4600], which is [iat] plus 3601.  When the readings are two
    seconds apart the token expires at [iat] plus 3602, and the gateway
    still accepts it 3601 seconds after its issue. *)
Theorem login_token_lifetime_across_a_second :
  let late := Payload.mk 1 "test@student.com" 999 4601 in
  (Demo.good_login (Demo.boot 999 [0; 1]%nat)).1
    = jsonify (LoginSuccessful 1 "test@student.com"
                 (Demo.encode (Payload.mk 1 "test@student.com" 999 4600)
                              "super-secret-demo-key")) /\
  4600 = 999 + JWT_EXPIRATION_SECONDS + 1 /\
  Demo.token_of (Demo.good_login (Demo.boot 999 [0; 2]%nat)).1
    = Demo.encode late "super-secret-demo-key" /\
  (@authenticate (Demo.platform [late])
     (Demo.protected_request (Demo.encode late "super-secret-demo-key") ∅ ∅)
     (Demo.boot (999 + JWT_EXPIRATION_SECONDS + 1) [])).1
    = inr Demo.alice.
Proof. vm_compute. repeat split. Qed.

(** ** C2 *)

(** C2, counterexample.  [alice] logs in, then three logins from her address
    fail.  Her next request passes the gateway and is answered 200, and the
    counter of the address is still 3, not zero. *)
Lemma gateway_success_keeps_the_counter :
  let w := Demo.repeat_request 3 Demo.failed_login
             (Demo.good_login (Demo.boot 1000 [])).2 in
  let request := Demo.protected_request Demo.alice_token ∅ ∅ in
  (@authenticate Demo.app request w).1 = inr Demo.alice /\
  status (@dispatch Demo.app GetDocuments request w).1 = 200 /\
  failures w Demo.ip = 3 /\
  failures (@dispatch Demo.app GetDocuments request w).2 Demo.ip = 3.
Proof. vm_compute. repeat split. Qed.

(** ** C3 *)



(** ** C4, C5 and C10 *)

(** C4, witness: [alice] gets her one document, [bob] gets none. *)
Lemma list_documents_only_own_witness :
  (@dispatch Demo.app GetDocuments
     (Demo.protected_request Demo.alice_token ∅ ∅) Demo.with_upload).1
    = jsonify (DocumentList
        [mkDocumentJson Demo.hw1_id "hw1.pdf" "1_1000_hw1.pdf" 1000]) /\
  (@dispatch Demo.app GetDocuments
     (Demo.protected_request Demo.bob_token ∅ ∅) Demo.with_upload).1
    = jsonify (DocumentList []).
Proof.
  split.
  - destruct (@list_documents_only_own Demo.app
                (Demo.protected_request Demo.alice_token ∅ ∅) Demo.with_upload
                (@authenticate Demo.app
                   (Demo.protected_request Demo.alice_token ∅ ∅)
                   Demo.with_upload).2 Demo.alice) as [Hanswer _].
    + vm_compute. reflexivity.
    + unfold dispatch. rewrite Hanswer. vm_compute. reflexivity.
  - destruct (@list_documents_only_own Demo.app
                (Demo.protected_request Demo.bob_token ∅ ∅) Demo.with_upload
                (@authenticate Demo.app
                   (Demo.protected_request Demo.bob_token ∅ ∅)
                   Demo.with_upload).2 Demo.bob) as [Hanswer _].
    + vm_compute. reflexivity.
    + unfold dispatch. rewrite Hanswer. vm_compute. reflexivity.
Defined.

(** C5, witness: [alice] uploads [hw1.pdf] with a form field that names
    another owner; the record is hers. *)
Lemma upload_owner_is_authenticated_caller_witness :
  let request :=
    mkRequest Demo.ip (Demo.bearer Demo.alice_token) None ∅
              {[ "user_id" := "2"%string ]} {[ "file" := Demo.hw1 ]} in
  let w := (Demo.good_login (Demo.boot 1000 [])).2 in
  exists doc,
    documents (@auth_required Demo.app (@upload_document Demo.app) request w).2
      = (documents w ++ [doc])%list /\
    Document.user_id doc = 1.
Proof.
  intros request w.
  destruct (@upload_owner_is_authenticated_caller Demo.app request w
              (@auth_required Demo.app (@upload_document Demo.app) request w).2
              (@auth_required Demo.app (@upload_document Demo.app) request w).1)
    as [(user & w1 & payload & doc & Hauth & _ & _ & Hgrow & Hown & _) _].
  - vm_compute. reflexivity.
  - vm_compute. reflexivity.
  - exists doc. split; [exact Hgrow|].
    rewrite Hown.
    assert (Huser : (@authenticate Demo.app request w).1 = inr user)
      by (by rewrite Hauth).
    vm_compute in Huser. by injection Huser as <-.
Defined.

(** C10, witness: an upload without a file part, and an upload of a text
    file, both leave the registry and the folder empty. *)
Lemma rejected_upload_changes_nothing_witness :
  let w := (Demo.good_login (Demo.boot 1000 [])).2 in
  let no_file := Demo.protected_request Demo.alice_token ∅ ∅ in
  let notes := mkFile "application/pdf" "notes.pdf" [x68; x65; x6c; x6c; x6f] 0 in
  let bad_file := Demo.protected_request Demo.alice_token ∅ {[ "file" := notes ]} in
  (@auth_required Demo.app (@upload_document Demo.app) no_file w).1
    = jsonify_code (Error "No file uploaded") 400 /\
  (@auth_required Demo.app (@upload_document Demo.app) bad_file w).1
    = jsonify_code (Error "Only PDF files are allowed") 400 /\
  documents (@auth_required Demo.app (@upload_document Demo.app) bad_file w).2 = [] /\
  uploads (@auth_required Demo.app (@upload_document Demo.app) bad_file w).2 = ∅.
Proof.
  intros w no_file notes bad_file.
  destruct (@rejected_upload_changes_nothing Demo.app no_file w
              (@authenticate Demo.app no_file w).2 Demo.alice)
    as (Hnone & _); [vm_compute; reflexivity|].
  destruct (@rejected_upload_changes_nothing Demo.app bad_file w
              (@authenticate Demo.app bad_file w).2 Demo.alice)
    as (_ & Hbad & _ & Hdocs & Hdisk); [vm_compute; reflexivity|].
  rewrite Hnone by (vm_compute; reflexivity).
  rewrite (Hbad notes) by (vm_compute; reflexivity).
  split; [reflexivity|]. split; [reflexivity|].
  cbn [snd]. rewrite Hdocs, Hdisk. split; vm_compute; reflexivity.
Defined.

(** ** C8 *)

(** C8, counterexample.  At time 4600 [alice]'s token has expired.  A
    request with it and a request with a token that is no token are both
    answered 401, with different bodies: the two responses differ. *)
Lemma expired_and_invalid_token_bodies_differ :
  let w := set_clock (1000 + JWT_EXPIRATION_SECONDS) [] Demo.with_upload in
  let expired := Demo.protected_request Demo.alice_token ∅ ∅ in
  let invalid := Demo.protected_request "garbage" ∅ ∅ in
  (@dispatch Demo.app GetDocuments expired w).1
    = jsonify_code (Error "Token expired") 401 /\
  (@dispatch Demo.app GetDocuments invalid w).1
    = jsonify_code (Error "Invalid token") 401 /\
  (@dispatch Demo.app GetDocuments expired w).1
    <> (@dispatch Demo.app GetDocuments invalid w).1.
Proof. vm_compute. repeat split. discriminate. Qed.

(** C8, witness: the same two requests; both record a failure. *)
Lemma expired_and_invalid_token_responses_witness :
  let w := set_clock (1000 + JWT_EXPIRATION_SECONDS) [] Demo.with_upload in
  let expired := Demo.protected_request Demo.alice_token ∅ ∅ in
  let invalid := Demo.protected_request "garbage" ∅ ∅ in
  status (@auth_required Demo.app list_documents expired w).1 = 401 /\
  status (@auth_required Demo.app list_documents invalid w).1 = 401 /\
  failures (@auth_required Demo.app list_documents expired w).2 Demo.ip = 1 /\
  failures (@auth_required Demo.app list_documents invalid w).2 Demo.ip = 1.
Proof.
  intros w expired invalid.
  destruct (@expired_and_invalid_token_responses Demo.app list_documents expired w)
    as (Hexpired & _ & Hcount & _); [reflexivity|reflexivity|].
  destruct (@expired_and_invalid_token_responses Demo.app list_documents invalid w)
    as (_ & Hinvalid & Hcount' & _); [reflexivity|reflexivity|].
  rewrite Hexpired by (vm_compute; reflexivity).
  rewrite Hinvalid by (vm_compute; reflexivity).
  cbn [fst snd]. split; [reflexivity|]. split; [reflexivity|].
  split.
  - etransitivity; [exact Hcount|]. vm_compute. reflexivity.
  - etransitivity; [exact Hcount'|]. vm_compute. reflexivity.
Defined.

(** ** C9 *)



(** * Further properties *)

(** ** Steps and the relations they keep *)

Section Keeps.
Context {R : relation World} `{!PreOrder R}.

Lemma keeps_ret {A} (a : A) : keeps R (ret a).
Proof. intros w. simpl. reflexivity. Qed.

Lemma keeps_gets {A} (f : World -> A) : keeps R (gets f).
Proof. intros w. simpl. reflexivity. Qed.

Lemma keeps_bind {A B} (m : M A) (k : A -> M B) :
  keeps R m -> (forall a, keeps R (k a)) -> keeps R (bind m k).
Proof.
  intros Hm Hk w. unfold bind. specialize (Hm w).
  destruct (m w) as [a w1]. simpl in Hm. specialize (Hk a w1).
  by transitivity w1.
Qed.

End Keeps.

#[global] Instance same_users_preorder : PreOrder same_users.
Proof. split; [done|]. intros w1 w2 w3. unfold same_users. congruence. Qed.

#[global] Instance same_documents_preorder : PreOrder same_documents.
Proof. split; [done|]. intros w1 w2 w3. unfold same_documents. congruence. Qed.

#[global] Instance same_uploads_preorder : PreOrder same_uploads.
Proof. split; [done|]. intros w1 w2 w3. unfold same_uploads. congruence. Qed.

#[global] Instance log_extended_preorder : PreOrder log_extended.
Proof.
  split.
  - intros w. exists []. by rewrite app_nil_r.
  - intros w1 w2 w3 [n1 H1] [n2 H2]. exists (n1 ++ n2)%list.
    by rewrite H2, H1, app_assoc.
Qed.

#[global] Instance same_throttle_at_preorder a : PreOrder (same_throttle_at a).
Proof.
  split; [done|]. intros w1 w2 w3 [? ?] [? ?]. unfold same_throttle_at.
  split; congruence.
Qed.

(** One step of a proof that a handler keeps a relation: through a bind, a
    return, a read, or by cases on what a branch looks at. *)
Ltac keeps_step :=
  lazymatch goal with
  | |- keeps _ (bind _ _) => apply keeps_bind; [|intros ?]
  | |- keeps _ (ret _) => apply keeps_ret
  | |- keeps _ (gets _) => apply keeps_gets
  | |- keeps _ (match ?x with _ => _ end) => destruct x
  end.


Lemma keeps_modify (R : relation World) (f : World -> World) :
  (forall w, R w (f w)) -> keeps R (modify f).
Proof. intros Hf w. apply Hf. Qed.

(** *** The [User] table *)

Lemma time_time_users : keeps same_users time_time.
Proof. by intros w. Qed.

Lemma logging_warning_users r : keeps same_users (logging_warning r).
Proof. by intros w. Qed.

Lemma register_failed_attempt_users ip : keeps same_users (register_failed_attempt ip).
Proof. intros w. by destruct (register_failed_attempt_frame ip w) as (? & _). Qed.

Lemma is_ip_blocked_users ip : keeps same_users (is_ip_blocked ip).
Proof. intros w. by destruct (is_ip_blocked_frame ip w) as (? & _). Qed.

Lemma file_save_users path file : keeps same_users (file_save path file).
Proof. by intros w. Qed.

(** *** The [Document] table *)

Lemma time_time_documents : keeps same_documents time_time.
Proof. by intros w. Qed.

Lemma logging_warning_documents r : keeps same_documents (logging_warning r).
Proof. by intros w. Qed.

Lemma register_failed_attempt_same_documents ip :
  keeps same_documents (register_failed_attempt ip).
Proof. intros w. by destruct (register_failed_attempt_frame ip w) as (_ & ? & _). Qed.

Lemma is_ip_blocked_documents ip : keeps same_documents (is_ip_blocked ip).
Proof. intros w. by destruct (is_ip_blocked_frame ip w) as (_ & ? & _). Qed.

(** *** The security log *)

Lemma log_extended_same w w' : security_log w' = security_log w -> log_extended w w'.
Proof. intros Hlog. exists []. by rewrite app_nil_r. Qed.

Lemma time_time_log : keeps log_extended time_time.
Proof. intros w. by apply log_extended_same. Qed.

Lemma logging_warning_log r : keeps log_extended (logging_warning r).
Proof. intros w. by exists [r]. Qed.

Lemma register_failed_attempt_log_extended ip :
  keeps log_extended (register_failed_attempt ip).
Proof. intros w. eexists. apply register_failed_attempt_log. Qed.

Lemma is_ip_blocked_log ip : keeps log_extended (is_ip_blocked ip).
Proof.
  intros w. apply log_extended_same.
  by destruct (is_ip_blocked_frame ip w) as (_ & _ & _ & ?).
Qed.

Lemma file_save_log path file : keeps log_extended (file_save path file).
Proof. intros w. by apply log_extended_same. Qed.

(** *** The throttle entries of another address *)

Lemma time_time_throttle a : keeps (same_throttle_at a) time_time.
Proof. by intros w. Qed.

Lemma logging_warning_throttle a r : keeps (same_throttle_at a) (logging_warning r).
Proof. by intros w. Qed.

Lemma file_save_throttle a path file : keeps (same_throttle_at a) (file_save path file).
Proof. by intros w. Qed.

Lemma register_failed_attempt_throttle a ip :
  a <> ip -> keeps (same_throttle_at a) (register_failed_attempt ip).
Proof.
  intros Hne w. rewrite register_failed_attempt_unfold. unfold same_throttle_at.
  simpl. destruct (BLOCK_THRESHOLD <=? failures w ip + 1); simpl;
    rewrite ?lookup_insert_ne by done; done.
Qed.

Lemma is_ip_blocked_throttle a ip :
  a <> ip -> keeps (same_throttle_at a) (is_ip_blocked ip).
Proof.
  intros Hne w. rewrite is_ip_blocked_unfold. unfold same_throttle_at.
  destruct (BLOCKED_IPS w !! ip) as [until|]; [|done].
  simpl. destruct (_ <? until); simpl; rewrite ?lookup_delete_ne by done; done.
Qed.

(** *** The upload folder *)

Lemma time_time_uploads : keeps same_uploads time_time.
Proof. by intros w. Qed.

Lemma logging_warning_uploads r : keeps same_uploads (logging_warning r).
Proof. by intros w. Qed.

Lemma register_failed_attempt_uploads ip : keeps same_uploads (register_failed_attempt ip).
Proof. intros w. by destruct (register_failed_attempt_frame ip w) as (_ & _ & ?). Qed.

Lemma is_ip_blocked_uploads ip : keeps same_uploads (is_ip_blocked ip).
Proof. intros w. by destruct (is_ip_blocked_frame ip w) as (_ & _ & ? & _). Qed.

Create HintDb keeps.
#[global] Hint Resolve time_time_users logging_warning_users
  register_failed_attempt_users is_ip_blocked_users file_save_users
  time_time_log logging_warning_log register_failed_attempt_log_extended
  is_ip_blocked_log file_save_log
  time_time_throttle logging_warning_throttle file_save_throttle
  register_failed_attempt_throttle is_ip_blocked_throttle
  time_time_uploads logging_warning_uploads register_failed_attempt_uploads
  is_ip_blocked_uploads
  time_time_documents logging_warning_documents
  register_failed_attempt_same_documents is_ip_blocked_documents : keeps.

(** A handler keeps a relation that each of its steps keeps. *)
Ltac keeps_handler :=
  repeat keeps_step; auto with keeps.

Section Handlers.
Context `{platform : Platform}.

Lemma authenticate_keeps (R : relation World) `{!PreOrder R} request :
  keeps R time_time ->
  (forall r, keeps R (logging_warning r)) ->
  keeps R (register_failed_attempt (remote_addr request)) ->
  keeps R (is_ip_blocked (remote_addr request)) ->
  keeps R (authenticate request).
Proof.
  intros Htime Hlog Hfail Hblocked. unfold authenticate, User_query_get.
  cbv zeta. repeat keeps_step; auto.
Qed.

Lemma auth_required_keeps (R : relation World) `{!PreOrder R} fn request :
  keeps R (authenticate request) ->
  (forall user, keeps R (fn user request)) ->
  keeps R (auth_required fn request).
Proof. intros Hauth Hfn. unfold auth_required. repeat keeps_step; auto. Qed.

Lemma login_keeps (R : relation World) `{!PreOrder R} request :
  keeps R time_time ->
  keeps R (register_failed_attempt (remote_addr request)) ->
  (forall w v, R w (set_FAILED_ATTEMPTS (<[remote_addr request := v]> (FAILED_ATTEMPTS w)) w)) ->
  keeps R (login request).
Proof.
  intros Htime Hfail Hreset. unfold login, User_query_filter_by_email. cbv zeta.
  repeat keeps_step; auto. apply keeps_modify. intros w. apply Hreset.
Qed.

Lemma download_document_keeps (R : relation World) `{!PreOrder R} user request :
  (forall r, keeps R (logging_warning r)) ->
  keeps R (register_failed_attempt (remote_addr request)) ->
  keeps R (download_document user request).
Proof.
  intros Hlog Hfail.
  unfold download_document, Document_query_get, send_from_directory. cbv zeta.
  repeat keeps_step; auto.
Qed.

Lemma list_documents_keeps (R : relation World) `{!PreOrder R} user request :
  keeps R (list_documents user request).
Proof.
  unfold list_documents, Document_query_filter_by_user_id. repeat keeps_step.
Qed.

Lemma upload_document_keeps (R : relation World) `{!PreOrder R} user request :
  keeps R time_time ->
  (forall path file, keeps R (file_save path file)) ->
  (forall w n, R w (set_entropy n w)) ->
  (forall w doc, R w (set_documents (documents w ++ [doc]) w)) ->
  keeps R (upload_document user request).
Proof.
  intros Htime Hsave Hentropy Hinsert.
  unfold upload_document, Document_query_get. cbv zeta.
  repeat keeps_step; auto; apply keeps_modify; auto.
Qed.

End Handlers.

(** ** What no route does *)

Section Routes.
Context `{platform : Platform}.

Lemma dispatch_keeps (R : relation World) `{!PreOrder R} route request :
  keeps R time_time ->
  (forall r, keeps R (logging_warning r)) ->
  keeps R (register_failed_attempt (remote_addr request)) ->
  keeps R (is_ip_blocked (remote_addr request)) ->
  (forall w v,
     R w (set_FAILED_ATTEMPTS (<[remote_addr request := v]> (FAILED_ATTEMPTS w)) w)) ->
  (route = PostUpload ->
   (forall path file, keeps R (file_save path file)) /\
   (forall w n, R w (set_entropy n w)) /\
   (forall w doc, R w (set_documents (documents w ++ [doc]) w))) ->
  keeps R (dispatch route request).
Proof.
  intros Htime Hlog Hfail Hblocked Hreset Hupload.
  pose proof (authenticate_keeps R request Htime Hlog Hfail Hblocked) as Hauth.
  destruct route; simpl.
  - by apply (login_keeps R).
  - destruct (Hupload eq_refl) as (? & ? & ?).
    apply (auth_required_keeps R); [done|]. intros user.
    by apply (upload_document_keeps R).
  - apply (auth_required_keeps R); [done|]. intros user. by apply (list_documents_keeps R).
  - apply (auth_required_keeps R); [done|]. intros user.
    by apply (download_document_keeps R).
Qed.

(** No route adds, removes or changes a user: whatever the request, on every
    route the [User] table after the request is the table before it. *)
Theorem no_route_changes_users (route : Route) (request : Request) (w : World) :
  users (dispatch route request w).2 = users w.
Proof.
  apply (dispatch_keeps same_users); auto with keeps.
  - by intros w0 v.
  - intros _. repeat split; auto with keeps.
Qed.

(** Only the upload route writes: after a request to the login, list or
    download route, whatever its outcome, the [Document] table and the
    upload folder are as they were. *)
Theorem only_upload_writes (route : Route) (request : Request) (w : World) :
  route <> PostUpload ->
  documents (dispatch route request w).2 = documents w /\
  uploads (dispatch route request w).2 = uploads w.
Proof.
  intros Hroute. split.
  - apply (dispatch_keeps same_documents); auto with keeps;
      [by intros w0 v|intros ->; congruence].
  - apply (dispatch_keeps same_uploads); auto with keeps;
      [by intros w0 v|intros ->; congruence].
Qed.

(** The security log is append-only: after any request on any route the log
    is the log before the request with records added at its end. *)
Theorem security_log_append_only (route : Route) (request : Request) (w : World) :
  exists new,
    security_log (dispatch route request w).2 = (security_log w ++ new)%list.
Proof.
  apply (dispatch_keeps log_extended); auto with keeps.
  - intros w0 v. by apply log_extended_same.
  - intros _. repeat split; auto with keeps; intros; by apply log_extended_same.
Qed.

Lemma dispatch_elsewhere route request w a :
  a <> remote_addr request ->
  same_throttle_at a w (dispatch route request w).2.
Proof.
  intros Hne.
  apply (dispatch_keeps (same_throttle_at a)); auto with keeps.
  - intros w0 v. unfold same_throttle_at. simpl.
    by rewrite lookup_insert_ne by done.
  - intros _. repeat split; auto with keeps.
Qed.

(** The throttle is kept per address: a request from one address, on any
    route and with any outcome, leaves the failure counter and the
    block-until entry of every other address as they were. *)
Theorem other_addresses_untouched (route : Route) (request : Request)
    (w : World) (a : string) :
  a <> remote_addr request ->
  failures (dispatch route request w).2 a = failures w a /\
  BLOCKED_IPS (dispatch route request w).2 !! a = BLOCKED_IPS w !! a.
Proof.
  intros Hne.
  assert (Hsame : same_throttle_at a w (dispatch route request w).2).
  { apply (dispatch_keeps (same_throttle_at a)); auto with keeps.
    - intros w0 v. unfold same_throttle_at. simpl.
      by rewrite lookup_insert_ne by done.
    - intros _. repeat split; auto with keeps. }
  destruct Hsame as [Hfailed Hblocked]. split; [|done].
  unfold failures. by rewrite Hfailed.
Qed.

End Routes.

(** ** The throttle, step by step *)

Lemma failures_in_a_row_S n ip w :
  failures_in_a_row (S n) ip w
  = (register_failed_attempt ip (failures_in_a_row n ip w)).2.
Proof. reflexivity. Qed.

(** The tenth failure is the first to block.  For an address with a counter
    at zero and no block entry, after [n] recorded failures in a row the
    counter is [n], and the address has a block entry exactly when [n] has
    reached the threshold of 10. *)
Theorem tenth_failure_is_the_first_to_block (ip : string) (w : World) (n : nat) :
  failures w ip = 0 ->
  BLOCKED_IPS w !! ip = None ->
  failures (failures_in_a_row n ip w) ip = Z.of_nat n /\
  (BLOCKED_IPS (failures_in_a_row n ip w) !! ip = None
   <-> Z.of_nat n < BLOCK_THRESHOLD).
Proof.
  intros Hzero Hfree. induction n as [|n [IHcount IHentry]].
  - simpl. split; [done|]. split; [intros _; unfold BLOCK_THRESHOLD; lia|done].
  - rewrite failures_in_a_row_S. split.
    + rewrite register_failed_attempt_failures. lia.
    + rewrite register_failed_attempt_unfold. simpl. rewrite IHcount.
      destruct (Z.leb_spec BLOCK_THRESHOLD (Z.of_nat n + 1)) as [Hge|Hlt]; simpl.
      * rewrite lookup_insert_eq. split; [discriminate|lia].
      * rewrite IHentry. lia.
Qed.

(** Witness: ten failures block a fresh address, nine do not. *)
Lemma tenth_failure_is_the_first_to_block_witness :
  BLOCKED_IPS (failures_in_a_row 9 Demo.ip (Demo.boot 1000 [])) !! Demo.ip = None /\
  BLOCKED_IPS (failures_in_a_row 10 Demo.ip (Demo.boot 1000 [])) !! Demo.ip <> None.
Proof.
  split.
  - apply (tenth_failure_is_the_first_to_block Demo.ip (Demo.boot 1000 []) 9);
      [reflexivity|reflexivity|reflexivity].
  - intros Hnone.
    apply (tenth_failure_is_the_first_to_block Demo.ip (Demo.boot 1000 []) 10)
      in Hnone; [|reflexivity|reflexivity].
    vm_compute in Hnone. discriminate.
Defined.

(** What [is_ip_blocked] answers, and what it leaves.  An address is
    reported blocked exactly when it has an entry and the clock reads less
    than its block-until; at that instant or later the answer is [False].
    After the call the entry is still there if the answer was [True] and
    gone if it was [False]; and for an address without an entry the call
    reads no clock and changes nothing. *)
Theorem is_ip_blocked_answer (ip : string) (w : World) :
  let now := clock w + Z.of_nat (hd 0%nat (ticks w)) in
  ((is_ip_blocked ip w).1 = true <->
   exists until, BLOCKED_IPS w !! ip = Some until /\ now < until) /\
  BLOCKED_IPS (is_ip_blocked ip w).2 !! ip
    = (if (is_ip_blocked ip w).1 then BLOCKED_IPS w !! ip else None) /\
  (BLOCKED_IPS w !! ip = None -> is_ip_blocked ip w = (false, w)).
Proof.
  intros now. rewrite is_ip_blocked_unfold. fold now.
  destruct (BLOCKED_IPS w !! ip) as [until|] eqn:Hentry.
  - simpl. destruct (Z.ltb_spec now until) as [Hlt|Hge]; simpl.
    + repeat split; eauto. discriminate.
    + rewrite lookup_delete_eq. repeat split; try discriminate.
      intros (until' & [= <-] & Hlt). lia.
  - simpl. repeat split; try discriminate; auto.
    intros (until & Hsome & _). discriminate.
Qed.

(** Witness: an entry until 1060 is active at 1059, and cleared at 1060. *)
Lemma is_ip_blocked_answer_witness :
  let w := failures_in_a_row 10 Demo.ip (Demo.boot 1000 []) in
  (is_ip_blocked Demo.ip (set_clock 1059 [] w)).1 = true /\
  BLOCKED_IPS (is_ip_blocked Demo.ip (set_clock 1060 [] w)).2 !! Demo.ip = None /\
  is_ip_blocked Demo.ip (Demo.boot 1000 []) = (false, Demo.boot 1000 []).
Proof.
  intros w. split; [|split].
  - apply (is_ip_blocked_answer Demo.ip (set_clock 1059 [] w)).
    exists 1060. split; [reflexivity|reflexivity].
  - destruct (is_ip_blocked_answer Demo.ip (set_clock 1060 [] w)) as (_ & Hafter & _).
    rewrite Hafter. reflexivity.
  - apply (is_ip_blocked_answer Demo.ip (Demo.boot 1000 [])). reflexivity.
Defined.

(** Witness for [other_addresses_untouched]: ten failed logins from one
    address leave another address unblocked, at counter zero. *)
Lemma other_addresses_untouched_witness :
  let w := Demo.repeat_request 9 Demo.failed_login (Demo.boot 1000 []) in
  failures (@dispatch Demo.app PostLogin
              (Demo.login_request "test@student.com" "wrong") w).2 "198.51.100.1" = 0 /\
  BLOCKED_IPS (@dispatch Demo.app PostLogin
              (Demo.login_request "test@student.com" "wrong") w).2 !! "198.51.100.1"
    = None.
Proof.
  intros w.
  destruct (@other_addresses_untouched Demo.app PostLogin
              (Demo.login_request "test@student.com" "wrong") w "198.51.100.1")
    as [Hcount Hentry]; [discriminate|].
  rewrite Hcount, Hentry. split; reflexivity.
Defined.

(** Witness for [only_upload_writes]: a forbidden download leaves table and
    folder alone. *)
Lemma only_upload_writes_witness :
  let request :=
    Demo.protected_request Demo.bob_token {[ "file_id" := Demo.hw1_id ]} ∅ in
  documents (@dispatch Demo.app GetDownload request Demo.with_upload).2
    = documents Demo.with_upload.
Proof.
  intros request.
  by destruct (@only_upload_writes Demo.app GetDownload request Demo.with_upload)
    as [Hdocs _].
Defined.

(** ** The gateway, path by path *)

Lemma is_ip_blocked_true ip w :
  (is_ip_blocked ip w).1 = true ->
  BLOCKED_IPS (is_ip_blocked ip w).2 = BLOCKED_IPS w.
Proof.
  rewrite is_ip_blocked_unfold.
  destruct (BLOCKED_IPS w !! ip) as [until|]; [|discriminate].
  simpl. by destruct (_ <? until).
Qed.

Section GatewayPaths.
Context `{platform : Platform}.

(** A blocked address is turned away before anything else.  While the
    address has an entry and the clock reads less than its block-until,
    every protected request from it is answered 429, whatever its headers,
    token and handler: the handler does not run, no failure is recorded,
    the block is not extended, and the attempt is logged. *)
Theorem blocked_address_gets_429 (fn : User.t -> Request -> M Response)
    (request : Request) (w : World) (until : Z) :
  let ip := remote_addr request in
  let now := clock w + Z.of_nat (hd 0%nat (ticks w)) in
  BLOCKED_IPS w !! ip = Some until ->
  now < until ->
  auth_required fn request w
    = (jsonify_code (Error "Too many failed attempts. Try again later.") 429,
       set_security_log (security_log w ++ [BlockedIpRequest ip])
         (set_clock now (tl (ticks w)) w)).
Proof.
  intros ip now Hentry Hactive.
  apply auth_required_inl. unfold authenticate, bind. fold ip.
  rewrite is_ip_blocked_unfold, Hentry. simpl. fold now.
  destruct (Z.ltb_spec now until) as [_|Hge]; [reflexivity|lia].
Qed.

Lemma authenticate_inl_effects (request : Request) (w w' : World)
    (rejection : Response) :
  let ip := remote_addr request in
  authenticate request w = (inl rejection, w') ->
  ((is_ip_blocked ip w).1 = true /\
   status rejection = 429 /\
   FAILED_ATTEMPTS w' = FAILED_ATTEMPTS w /\
   BLOCKED_IPS w' = BLOCKED_IPS w /\
   security_log w' = (security_log w ++ [BlockedIpRequest ip])%list) \/
  ((is_ip_blocked ip w).1 = false /\
   status rejection = 401 /\
   failures w' ip = failures w ip + 1).
Proof.
  intros ip. unfold authenticate. fold ip. unfold bind at 1.
  pose proof (is_ip_blocked_FAILED_ATTEMPTS ip w) as Hfailed.
  pose proof (is_ip_blocked_frame ip w) as (_ & _ & _ & Hlog).
  pose proof (is_ip_blocked_true ip w) as Hkept.
  destruct (is_ip_blocked ip w) as [[|] w1] eqn:Hblocked; simpl in *.
  { intros [= <- <-]. left. simpl. rewrite Hlog, Hfailed, Hkept by done.
    repeat split. }
  assert (Hcount : forall w0 : World,
    FAILED_ATTEMPTS w0 = FAILED_ATTEMPTS w1 ->
    failures (register_failed_attempt ip w0).2 ip = failures w ip + 1).
  { intros w0 Hw0. rewrite register_failed_attempt_failures.
    unfold failures. by rewrite Hw0, Hfailed. }
  intros Hrun. right. split; [done|].
  destruct (startswith _ "Bearer "); simpl in Hrun.
  2:{ rewrite fail_then_answer in Hrun. injection Hrun as <- <-. auto. }
  unfold bind at 1 in Hrun. simpl in Hrun.
  destruct (jwt_decode _ _ _) as [payload| |].
  2,3: rewrite fail_then_answer in Hrun; injection Hrun as <- <-; auto.
  unfold bind at 1, User_query_get, gets in Hrun. simpl in Hrun.
  destruct (find _ _); [discriminate|].
  rewrite fail_then_answer in Hrun. injection Hrun as <- <-. auto.
Qed.

(** Every 401 of the gateway counts as one failure, and its 429 as none.
    When the gateway rejects a request, either the address was blocked, the
    status is 429, the counters and the block table are untouched and the
    log has one more record; or the address was not blocked, the status is
    401 and the counter of the address has gone up by exactly one. *)
Theorem gateway_rejection_effects (request : Request) (w w' : World)
    (rejection : Response) :
  let ip := remote_addr request in
  authenticate request w = (inl rejection, w') ->
  ((is_ip_blocked ip w).1 = true /\
   status rejection = 429 /\
   FAILED_ATTEMPTS w' = FAILED_ATTEMPTS w /\
   BLOCKED_IPS w' = BLOCKED_IPS w /\
   security_log w' = (security_log w ++ [BlockedIpRequest ip])%list) \/
  ((is_ip_blocked ip w).1 = false /\
   status rejection = 401 /\
   failures w' ip = failures w ip + 1).
Proof. apply authenticate_inl_effects. Qed.

(** A request without a bearer credential.  When the address is not blocked
    and the [Authorization] header is absent, or does not start with
    [Bearer] and a space (the test is case-sensitive), the answer is the 401
    [Authentication required]; no token is decoded, the handler does not
    run, and one failure is recorded. *)
Theorem missing_bearer_is_rejected (fn : User.t -> Request -> M Response)
    (request : Request) (w : World) :
  let ip := remote_addr request in
  (is_ip_blocked ip w).1 = false ->
  startswith (default EmptyString (headers request !! "Authorization")) "Bearer "
    = false ->
  auth_required fn request w
    = (jsonify_code (Error "Authentication required") 401,
       (register_failed_attempt ip (is_ip_blocked ip w).2).2).
Proof.
  intros ip Hfree Hheader.
  apply auth_required_inl. unfold authenticate. fold ip. unfold bind at 1.
  destruct (is_ip_blocked ip w) as [blocked w1]. simpl in *. subst blocked.
  rewrite Hheader. simpl. apply fail_then_answer.
Qed.

(** A token whose user is gone.  When the address is not blocked and the
    token verifies, but the [User] table has no user under the token's
    subject, the answer is the 401 [User not found]; the handler does not
    run, and one failure is recorded. *)
Theorem unknown_subject_is_rejected (fn : User.t -> Request -> M Response)
    (request : Request) (w : World) (payload : Payload.t) :
  let ip := remote_addr request in
  let auth_header := default EmptyString (headers request !! "Authorization") in
  let w1 := (is_ip_blocked ip w).2 in
  (is_ip_blocked ip w).1 = false ->
  startswith auth_header "Bearer " = true ->
  jwt_decode (bearer_token auth_header) JWT_SECRET_KEY (time_time w1).1
    = Claims payload ->
  (forall user, user ∈ users w -> User.id user <> Payload.sub payload) ->
  auth_required fn request w
    = (jsonify_code (Error "User not found") 401,
       (register_failed_attempt ip (time_time w1).2).2).
Proof.
  intros ip auth_header w1 Hfree Hheader Hdecode Hgone.
  apply auth_required_inl. unfold authenticate. fold ip auth_header.
  unfold bind at 1.
  pose proof (is_ip_blocked_frame ip w) as (Husers & _). fold w1 in Husers.
  subst w1. destruct (is_ip_blocked ip w) as [blocked w1]. simpl in *.
  subst blocked. rewrite Hheader. simpl. unfold bind at 1. simpl.
  rewrite Hdecode. unfold bind at 1, User_query_get, gets. simpl.
  rewrite Husers.
  destruct (find _ (users w)) as [user|] eqn:Hfind.
  - apply find_some in Hfind as [Hin Hid]. apply Z.eqb_eq in Hid.
    apply list_elem_of_In in Hin. by destruct (Hgone user Hin).
  - apply fail_then_answer.
Qed.

End GatewayPaths.

(** ** Login, path by path *)

Section LoginPaths.
Context `{platform : Platform}.

(** A login without both fields.  When [request.get_json()] returns [None]
    (the body is the JSON value [null]), or returns an object that lacks the
    e-mail or the password or has one of them empty, the answer is the 400
    [Email and password required] and the state is untouched: no lookup is
    made and the attempt is not counted as a failure.  Requests on which
    [get_json()] raises are outside this statement. *)
Theorem login_without_fields (request : Request) (w : World) :
  let data := default ∅ (json request) in
  data !! "email" = None \/ data !! "email" = Some EmptyString \/
  data !! "password" = None \/ data !! "password" = Some EmptyString ->
  login request w = (jsonify_code (Error "Email and password required") 400, w).
Proof.
  intros data Hmissing. unfold login. cbv zeta. fold data.
  assert (Hnot : not_ (data !! "email") || not_ (data !! "password") = true).
  { apply orb_true_iff.
    destruct Hmissing as [H|[H|[H|H]]]; rewrite H; simpl; auto. }
  rewrite Hnot. reflexivity.
Qed.

(** Wrong credentials look the same.  When both fields are present and
    either no user has the e-mail or the password does not match the hash
    of the user who has it, the answer is the same 401 [Invalid credentials]
    and the same single failure is recorded: neither the response nor the
    state tells an unknown e-mail from a wrong password. *)
Theorem login_invalid_credentials_alike (request : Request) (w : World)
    (email password : string) :
  let data := default ∅ (json request) in
  data !! "email" = Some email -> email <> EmptyString ->
  data !! "password" = Some password -> password <> EmptyString ->
  (forall user,
     find (fun u => String.eqb (User.email u) email) (users w) = Some user ->
     check_password_hash (User.password_hash user) password = false) ->
  login request w
    = (jsonify_code (Error "Invalid credentials") 401,
       (register_failed_attempt (remote_addr request) w).2).
Proof.
  intros data Hemail Hne Hpassword Hne' Hbad. unfold login. cbv zeta. fold data.
  rewrite Hemail, Hpassword. simpl.
  destruct (String.eqb_spec email EmptyString) as [|_]; [done|].
  destruct (String.eqb_spec password EmptyString) as [|_]; [done|].
  simpl. unfold bind at 1, User_query_filter_by_email, gets. simpl.
  destruct (find _ (users w)) as [user|].
  - rewrite (Hbad user eq_refl). simpl. apply fail_then_answer.
  - apply fail_then_answer.
Qed.

(** What a login does to the counter of its address: nothing (400), one
    more (401), or back to zero (200). *)
Lemma login_counter request w :
  let ip := remote_addr request in
  let response := (login request w).1 in
  let w' := (login request w).2 in
  (status response = 400 /\ failures w' ip = failures w ip) \/
  (status response = 401 /\ failures w' ip = failures w ip + 1) \/
  (status response = 200 /\ failures w' ip = 0).
Proof.
  intros ip. destruct (login request w) as [response w'] eqn:Hrun. simpl.
  revert Hrun. unfold login. fold ip.
  destruct (not_ _ || not_ _); simpl.
  { intros [= <- <-]. auto. }
  unfold bind at 1, User_query_filter_by_email, gets. simpl.
  destruct (find _ (users w)) as [user|].
  2:{ rewrite fail_then_answer. intros [= <- <-]. right. left.
      split; [done|apply register_failed_attempt_failures]. }
  destruct (check_password_hash _ _); simpl.
  2:{ rewrite fail_then_answer. intros [= <- <-]. right. left.
      split; [done|apply register_failed_attempt_failures]. }
  unfold bind, modify, time_time. simpl. intros [= <- <-].
  right. right. split; [done|]. unfold failures. simpl.
  by rewrite lookup_insert_eq.
Qed.

Lemma download_document_counter user request w :
  let ip := remote_addr request in
  let w' := (download_document user request w).2 in
  failures w' ip = failures w ip \/ failures w' ip = failures w ip + 1.
Proof.
  intros ip. destruct (download_document user request w) as [response w'] eqn:Hrun.
  simpl. revert Hrun. unfold download_document. fold ip.
  destruct (not_ _); simpl.
  { intros [= <- <-]. auto. }
  unfold bind at 1, Document_query_get, gets. simpl.
  destruct (find _ (documents w)) as [doc|]; simpl.
  2:{ intros [= <- <-]. auto. }
  destruct (negb _).
  - unfold bind at 1. simpl. rewrite fail_then_answer. intros [= <- <-].
    right. by rewrite register_failed_attempt_failures.
  - unfold send_from_directory, bind, gets. simpl.
    destruct (uploads w !! _); intros [= <- <-]; auto.
Qed.

Lemma dispatch_counter route request w :
  let ip := remote_addr request in
  let response := (dispatch route request w).1 in
  let w' := (dispatch route request w).2 in
  failures w' ip = failures w ip \/
  failures w' ip = failures w ip + 1 \/
  (route = PostLogin /\ status response = 200 /\ failures w' ip = 0).
Proof.
  intros ip.
  assert (Hwrap : forall fn,
    (forall user w1,
       failures (fn user request w1).2 ip = failures w1 ip \/
       failures (fn user request w1).2 ip = failures w1 ip + 1) ->
    failures (auth_required fn request w).2 ip = failures w ip \/
    failures (auth_required fn request w).2 ip = failures w ip + 1).
  { intros fn Hfn.
    destruct (authenticate request w) as [[rejection|user] w1] eqn:Hauth.
    - rewrite (auth_required_inl _ _ _ _ _ Hauth). simpl.
      pose proof (authenticate_inl_effects _ _ _ _ Hauth) as Heffect.
      cbv zeta in Heffect.
      destruct Heffect as [(_ & _ & Hsame & _)|(_ & _ & Hmore)]; [left|by right].
      unfold failures. by rewrite Hsame.
    - rewrite (auth_required_inr _ _ _ _ _ Hauth).
      destruct (authenticate_inr_frame _ _ _ _ Hauth) as (Hsame & _).
      assert (Hf : failures w1 ip = failures w ip)
        by (unfold failures; by rewrite Hsame).
      rewrite <- Hf. apply Hfn. }
  destruct route; simpl.
  - destruct (login_counter request w) as [[_ H]|[[_ H]|[? H]]]; auto.
  - destruct (Hwrap upload_document) as [H|H]; auto. intros user w1. left.
    assert (Hkeep : keeps (same_throttle_at ip) (upload_document user request)).
    { apply (upload_document_keeps (same_throttle_at ip)); auto with keeps;
        intros; split; reflexivity. }
    destruct (Hkeep w1) as [Hsame _]. unfold failures. by rewrite Hsame.
  - destruct (Hwrap list_documents) as [H|H]; auto.
  - destruct (Hwrap download_document) as [H|H]; auto.
    intros user w1. apply download_document_counter.
Qed.

(** One request, at most one failure.  On any route and whatever the
    outcome, a request leaves the failure counter of its own address as it
    was or exactly one higher, unless it is a login answered 200, which
    sets the counter to zero.  Nothing else lowers a counter. *)
Theorem one_request_one_failure_at_most (route : Route) (request : Request)
    (w : World) :
  let ip := remote_addr request in
  let response := (dispatch route request w).1 in
  let w' := (dispatch route request w).2 in
  failures w' ip = failures w ip \/
  failures w' ip = failures w ip + 1 \/
  (route = PostLogin /\ status response = 200 /\ failures w' ip = 0).
Proof. apply dispatch_counter. Qed.

(** ** C2: what resets the failure counter *)

(** C2 (as amended).  The failure counter of an address is reset to zero
    only by a successful login, in three parts.  First, a request that
    passes the gateway leaves every failure counter as it was; all the
    gateway does on success is drop the address's expired block-until
    entry, if there is one.  Second, a login answered 200 sets the counter
    of its address to zero and leaves the block-until entries as they were.
    Third, the "only": on every route and for every address, a request
    leaves the counter of that address as it was or exactly one higher,
    unless the request is a login answered 200 and the address is the
    request's own; so nothing but a successful login, by the gateway or by
    any handler behind it, ever lowers a counter. *)
Theorem counter_reset_on_login_only (request : Request) (w : World) :
  (forall user w1,
     authenticate request w = (inr user, w1) ->
     FAILED_ATTEMPTS w1 = FAILED_ATTEMPTS w /\
     BLOCKED_IPS w1 = delete (remote_addr request) (BLOCKED_IPS w)) /\
  (forall response w',
     login request w = (response, w') ->
     status response = 200 ->
     failures w' (remote_addr request) = 0 /\
     BLOCKED_IPS w' = BLOCKED_IPS w) /\
  (forall (route : Route) (a : string),
     let response := (dispatch route request w).1 in
     let w' := (dispatch route request w).2 in
     failures w' a = failures w a \/
     failures w' a = failures w a + 1 \/
     (route = PostLogin /\ a = remote_addr request /\
      status response = 200 /\ failures w' a = 0)).
Proof.
  split; [|split].
  - intros user w1 Hauth.
    destruct (authenticate_inr_frame _ _ _ _ Hauth) as (? & ? & _). auto.
  - intros response w' Hlogin Hok.
    destruct (login_200 _ _ _ _ Hlogin Hok) as (user & _ & _ & ->).
    simpl. split; [|reflexivity].
    unfold failures. simpl. by rewrite lookup_insert_eq.
  - intros route a. cbv zeta.
    destruct (decide (a = remote_addr request)) as [->|Hne].
    + destruct (dispatch_counter route request w) as [H|[H|(? & ? & ?)]]; auto.
      right. right. auto.
    + left. destruct (dispatch_elsewhere route request w a Hne) as [Hsame _].
      unfold failures. by rewrite Hsame.
Qed.

End LoginPaths.

(** C2, witness: after a login and three failed logins from the same
    address, the user's next request passes the gateway with the counters
    untouched, a login with the right password sets the counter of the
    address to zero, and a request to the list route leaves it at 3. *)
Lemma counter_reset_on_login_only_witness :
  let w := Demo.repeat_request 3 Demo.failed_login
             (Demo.good_login (Demo.boot 1000 [])).2 in
  let request := Demo.protected_request Demo.alice_token ∅ ∅ in
  FAILED_ATTEMPTS (@authenticate Demo.app request w).2 = FAILED_ATTEMPTS w /\
  failures (Demo.good_login w).2 Demo.ip = 0 /\
  failures (@dispatch Demo.app GetDocuments request w).2 Demo.ip = 3.
Proof.
  intros w request. split; [|split].
  - destruct (@counter_reset_on_login_only Demo.app request w) as (Hgate & _ & _).
    apply (Hgate Demo.alice (@authenticate Demo.app request w).2).
    vm_compute. reflexivity.
  - destruct (@counter_reset_on_login_only Demo.app
                (Demo.login_request "test@student.com" "password123") w)
      as (_ & Hlogin & _).
    apply (Hlogin (Demo.good_login w).1 (Demo.good_login w).2).
    + vm_compute. reflexivity.
    + vm_compute. reflexivity.
  - destruct (@counter_reset_on_login_only Demo.app request w) as (_ & _ & Honly).
    destruct (Honly GetDocuments Demo.ip) as [H|[H|(H & _)]].
    + rewrite H. vm_compute. reflexivity.
    + exfalso. revert H. vm_compute. discriminate.
    + discriminate H.
Defined.

(** ** The validator on any stream *)

(** [validate_pdf] reads where the stream stands.  Whatever the read
    position of the file object, the verdict is [True] exactly when the MIME
    type is [application/pdf], the four bytes at the read position are
    [%PDF], and the lower-cased name ends with [.pdf].  A stream with fewer
    than four bytes left is refused.  When the MIME type matches, the stream
    is rewound to position 0 whatever the verdict; when it does not, the
    file object is not touched.  In no case are the content, the name or the
    type changed. *)
Theorem validate_pdf_reads_at_position (file : FileStorage) :
  let header := take 4 (drop (position file) (stream file)) in
  ((validate_pdf file).1 = true <->
   mimetype file = "application/pdf"%string /\
   header = PDF_MAGIC /\
   endswith (lower (filename file)) ".pdf" = true) /\
  ((length (stream file) < position file + 4)%nat ->
   (validate_pdf file).1 = false) /\
  (validate_pdf file).2
    = (if String.eqb (mimetype file) "application/pdf"
       then file_seek 0 file else file).
Proof.
  intros header. unfold validate_pdf, file_read. simpl. fold header.
  assert (Hshort : (length (stream file) < position file + 4)%nat ->
                   header <> PDF_MAGIC).
  { intros Hlen Hmagic. apply (f_equal length) in Hmagic.
    unfold header, PDF_MAGIC in Hmagic.
    rewrite length_take, length_drop in Hmagic. cbn [length] in Hmagic. lia. }
  destruct (String.eqb_spec (mimetype file) "application/pdf") as [Hmime|Hmime];
    simpl.
  - destruct (bool_decide_reflect (header = PDF_MAGIC)) as [Hmagic|Hmagic]; simpl.
    + destruct (endswith (lower (filename file)) ".pdf"); simpl.
      * repeat split; auto. intros Hlen. by destruct (Hshort Hlen).
      * repeat split; try discriminate; try tauto; intuition discriminate.
    + repeat split; try discriminate; try tauto; intuition.
  - repeat split; try discriminate; try tauto; intuition.
Qed.

(** Witness: a stream that holds [%PDF] at its start only, read from
    position 1, is refused and rewound; three bytes are refused. *)
Lemma validate_pdf_reads_at_position_witness :
  (validate_pdf (mkFile "application/pdf" "a.pdf" [x25; x50; x44] 0)).1 = false /\
  validate_pdf (mkFile "application/pdf" "a.pdf" [x25; x50; x44; x46; x0a] 1)
    = (false, mkFile "application/pdf" "a.pdf" [x25; x50; x44; x46; x0a] 0).
Proof.
  split.
  - apply (validate_pdf_reads_at_position
             (mkFile "application/pdf" "a.pdf" [x25; x50; x44] 0)).
    simpl. lia.
  - destruct (validate_pdf_reads_at_position
                (mkFile "application/pdf" "a.pdf" [x25; x50; x44; x46; x0a] 1))
      as (_ & _ & Hleft).
    rewrite (surjective_pairing (validate_pdf _)), Hleft. reflexivity.
Defined.

(** ** Uploads *)

Lemma validate_pdf_accepting_rewinds file :
  (validate_pdf file).1 = true -> (validate_pdf file).2 = file_seek 0 file.
Proof.
  unfold validate_pdf, file_read. simpl.
  destruct (String.eqb _ "application/pdf"); simpl; [|discriminate].
  destruct (bool_decide _); simpl; [|discriminate].
  by destruct (endswith _ ".pdf").
Qed.

Section Uploads.
Context `{platform : Platform}.

(** All there is to an upload answered 200. *)
Lemma send_from_directory_state directory name w :
  (send_from_directory directory name w).2 = w.
Proof.
  unfold send_from_directory, bind, gets. simpl.
  by destruct (uploads w !! _).
Qed.

(** What the handler does with a document of the requester's. *)
Lemma download_document_own user request w doc_id doc :
  args request !! "file_id" = Some doc_id ->
  doc_id <> EmptyString ->
  find (fun d => String.eqb (Document.id d) doc_id) (documents w) = Some doc ->
  Document.user_id doc = User.id user ->
  download_document user request w
    = send_from_directory UPLOAD_FOLDER (Document.stored_name doc) w.
Proof.
  intros Hargs Hid Hfind Hown. unfold download_document. rewrite Hargs. simpl.
  destruct (String.eqb_spec doc_id EmptyString) as [|_]; [done|].
  unfold bind at 1, Document_query_get, gets. simpl. rewrite Hfind, Hown.
  by rewrite Z.eqb_refl.
Qed.

(** What the handler does with a document of another user. *)
Lemma download_document_foreign user request w doc_id doc :
  args request !! "file_id" = Some doc_id ->
  doc_id <> EmptyString ->
  find (fun d => String.eqb (Document.id d) doc_id) (documents w) = Some doc ->
  Document.user_id doc <> User.id user ->
  download_document user request w
    = (jsonify_code (Error "Not authorized to download this file") 403,
       (register_failed_attempt (remote_addr request)
          (set_security_log
             (security_log w ++
              [UnauthorizedDownload (User.id user) doc_id (remote_addr request)])
             w)).2).
Proof.
  intros Hargs Hid Hfind Hforeign. unfold download_document. rewrite Hargs. simpl.
  destruct (String.eqb_spec doc_id EmptyString) as [|_]; [done|].
  unfold bind at 1, Document_query_get, gets. simpl. rewrite Hfind.
  destruct (Z.eqb_spec (Document.user_id doc) (User.id user)); [done|].
  simpl. unfold bind at 1. simpl. apply fail_then_answer.
Qed.

Lemma upload_document_200 user request w response w' :
  upload_document user request w = (response, w') ->
  status response = 200 ->
  exists file doc,
    files request !! "file" = Some file /\
    (validate_pdf file).1 = true /\
    doc = Document.mk (uuid4 (entropy w)) (User.id user)
            (secure_filename (filename file))
            (str (User.id user) ++ "_" ++ str (time_time w).1 ++ "_"
             ++ secure_filename (filename file))%string
            (time_time (time_time w).2).1 /\
    find (fun d => String.eqb (Document.id d) (Document.id doc)) (documents w)
      = None /\
    response = jsonify (FileUploaded (serialize_document doc)) /\
    documents w' = (documents w ++ [doc])%list /\
    uploads w' = <[stored_path doc := stream file]> (uploads w) /\
    users w' = users w.
Proof.
  unfold upload_document.
  destruct (files request !! "file") as [file|]; [|intros [= <- _]; discriminate].
  pose proof (validate_pdf_accepting_rewinds file) as Hrewind.
  destruct (validate_pdf file) as [[|] file'] eqn:Hvalid;
    [|intros [= <- _]; discriminate].
  simpl in Hrewind. rewrite (Hrewind eq_refl). clear Hrewind.
  unfold bind, time_time, file_save, modify, gets, Document_query_get, ret,
    ensure_safe_filename.
  simpl.
  destruct (find _ (documents w)) eqn:Hclash; [intros [= <- _]; discriminate|].
  intros [= <- <-] _. eexists file, _.
  split; [done|]. split; [by rewrite Hvalid|]. split; [reflexivity|].
  split; [exact Hclash|]. repeat split.
Qed.

(** An upload answered otherwise adds no record and removes no file. *)
Lemma upload_document_not_200 user request w :
  status (upload_document user request w).1 <> 200 ->
  documents (upload_document user request w).2 = documents w /\
  users (upload_document user request w).2 = users w /\
  (forall path, is_Some (uploads w !! path) ->
                is_Some (uploads (upload_document user request w).2 !! path)).
Proof.
  destruct (upload_document user request w) as [response w'] eqn:Hrun.
  simpl. revert Hrun. unfold upload_document.
  destruct (files request !! "file") as [file|]; [|by intros [= <- <-]].
  destruct (validate_pdf file) as [[|] file']; [|by intros [= <- <-]].
  unfold bind, time_time, file_save, modify, gets, Document_query_get, ret.
  simpl.
  destruct (find _ (documents w)); intros [= <- <-]; simpl; [|done].
  intros _. repeat split. intros path Hsome.
  destruct (decide (path = (UPLOAD_FOLDER ++ "/" ++
      (str (User.id user) ++ "_" ++
       str (clock w + Z.of_nat (hd 0%nat (ticks w))) ++ "_" ++
       ensure_safe_filename (filename file')))%string)) as [->|Hne].
  - rewrite lookup_insert_eq. eauto.
  - by rewrite lookup_insert_ne.
Qed.

(** An upload is registered under its id, for its owner.  After an upload
    answered 200 the response carries the new document, owned by the
    uploader, and a lookup of its id in the [Document] table finds that
    record, not an older one.  So, the id being non-empty, a download of
    that id by the uploader passes the ownership check: no failure is
    recorded, nothing is logged and tables and folder are as they were,
    whatever the file-serving step answers; the same download by a user
    with another id is answered 403 and counted as a failure of the
    address. *)
Theorem upload_then_lookup (user : User.t) (request : Request)
    (w w' : World) (response : Response) :
  upload_document user request w = (response, w') ->
  status response = 200 ->
  exists doc,
    response = jsonify (FileUploaded (serialize_document doc)) /\
    Document.user_id doc = User.id user /\
    (Document_query_get (Document.id doc) w').1 = Some doc /\
    (Document.id doc <> EmptyString ->
     forall request',
       args request' !! "file_id" = Some (Document.id doc) ->
       (let w2 := (download_document user request' w').2 in
        FAILED_ATTEMPTS w2 = FAILED_ATTEMPTS w' /\
        BLOCKED_IPS w2 = BLOCKED_IPS w' /\
        security_log w2 = security_log w' /\
        documents w2 = documents w' /\
        uploads w2 = uploads w') /\
       (forall other : User.t,
          User.id other <> User.id user ->
          (download_document other request' w').1
            = jsonify_code (Error "Not authorized to download this file") 403 /\
          failures (download_document other request' w').2 (remote_addr request')
            = failures w' (remote_addr request') + 1)).
Proof.
  intros Hrun Hok.
  destruct (upload_document_200 _ _ _ _ _ Hrun Hok)
    as (file & doc & Hfile & _ & Hdoc & Hfresh & -> & Hdocs & Hdisk & _).
  exists doc. split; [done|].
  assert (Howner : Document.user_id doc = User.id user) by (by rewrite Hdoc).
  split; [done|].
  assert (Hfind : find (fun d => String.eqb (Document.id d) (Document.id doc))
                       (documents w') = Some doc).
  { rewrite Hdocs. clear -Hfresh.
    induction (documents w) as [|d ds IH]; simpl in *.
    - by rewrite String.eqb_refl.
    - destruct (String.eqb (Document.id d) (Document.id doc)); [done|auto]. }
  split; [exact Hfind|].
  intros Hid request' Hargs. split.
  - rewrite (download_document_own _ _ _ _ _ Hargs Hid Hfind Howner).
    rewrite send_from_directory_state. cbv zeta. auto.
  - intros other Hother.
    rewrite (download_document_foreign other _ _ _ _ Hargs Hid Hfind)
      by (rewrite Howner; congruence).
    split; [reflexivity|]. cbn [snd].
    by rewrite register_failed_attempt_failures.
Qed.

(** An upload shows in its owner's list only.  After an upload answered 200
    by user [A], the documents listed for [A] are those listed before
    followed by the new one, and the documents listed for any other user
    are those listed before. *)
Theorem upload_then_list (A : User.t) (request : Request) (w w' : World)
    (response : Response) :
  upload_document A request w = (response, w') ->
  status response = 200 ->
  exists doc,
    response = jsonify (FileUploaded (serialize_document doc)) /\
    (forall request',
       (list_documents A request' w').1
       = jsonify (DocumentList
           (map serialize_document
              (filter (fun d => Document.user_id d = User.id A) (documents w))
            ++ [serialize_document doc]))) /\
    (forall (B : User.t) request',
       User.id B <> User.id A ->
       (list_documents B request' w').1 = (list_documents B request' w).1).
Proof.
  intros Hrun Hok.
  destruct (upload_document_200 _ _ _ _ _ Hrun Hok)
    as (file & doc & _ & _ & Hdoc & _ & -> & Hdocs & _).
  assert (Howner : Document.user_id doc = User.id A) by (by rewrite Hdoc).
  exists doc. split; [done|].
  unfold list_documents, Document_query_filter_by_user_id, bind, gets, ret.
  simpl. rewrite Hdocs. split.
  - intros _. rewrite filter_app, map_app. do 3 f_equal.
    rewrite filter_cons_True by done. done.
  - intros B _ Hne. rewrite filter_app, filter_cons_False by congruence.
    by rewrite filter_nil, app_nil_r.
Qed.

(** An upload writes one path.  After an upload answered 200 the upload
    folder is the folder before it with the content of the uploaded stream
    put under [uploads/] followed by the owner's id, the clock reading and
    the sanitised file name: every other path keeps its content, and a file
    already stored under that very path, by a document with the same owner,
    second and name, is overwritten. *)
Theorem upload_writes_one_path (user : User.t) (request : Request)
    (w w' : World) (response : Response) :
  upload_document user request w = (response, w') ->
  status response = 200 ->
  exists file,
    files request !! "file" = Some file /\
    let path :=
      (UPLOAD_FOLDER ++ "/" ++ str (User.id user) ++ "_" ++ str (time_time w).1
       ++ "_" ++ secure_filename (filename file))%string in
    uploads w' !! path = Some (stream file) /\
    (forall other, other <> path -> uploads w' !! other = uploads w !! other) /\
    (forall doc, doc ∈ documents w -> stored_path doc = path ->
       uploads w' !! stored_path doc = Some (stream file)).
Proof.
  intros Hrun Hok.
  destruct (upload_document_200 _ _ _ _ _ Hrun Hok)
    as (file & doc & Hfile & _ & Hdoc & _ & _ & _ & Hdisk & _).
  exists file. split; [done|]. intros path.
  assert (Hpath : stored_path doc = path) by (by rewrite Hdoc).
  rewrite Hdisk, Hpath. split; [by rewrite lookup_insert_eq|]. split.
  - intros other Hne. by rewrite lookup_insert_ne.
  - intros doc0 _ ->. by rewrite lookup_insert_eq.
Qed.

End Uploads.

(** ** Downloads *)

Section Downloads.
Context `{platform : Platform}.

(** A download by the owner is no abuse signal.  When the [file_id] is not
    empty, names a document of the registry and that document is the
    requester's, the handler hands over to the file-serving step and,
    whatever that step answers, records nothing: the failure counters and
    the block table are as they were, no record is added to the log, and
    the tables and the upload folder are unchanged. *)
Theorem owner_download_records_nothing (user : User.t) (request : Request)
    (w : World) (doc_id : string) (doc : Document.t) :
  args request !! "file_id" = Some doc_id ->
  doc_id <> EmptyString ->
  find (fun d => String.eqb (Document.id d) doc_id) (documents w) = Some doc ->
  Document.user_id doc = User.id user ->
  let w' := (download_document user request w).2 in
  FAILED_ATTEMPTS w' = FAILED_ATTEMPTS w /\
  BLOCKED_IPS w' = BLOCKED_IPS w /\
  security_log w' = security_log w /\
  users w' = users w /\
  documents w' = documents w /\
  uploads w' = uploads w.
Proof.
  intros Hargs Hid Hfind Hown.
  rewrite (download_document_own _ _ _ _ _ Hargs Hid Hfind Hown).
  rewrite send_from_directory_state. cbv zeta. auto 7.
Qed.

Lemma auth_required_blocked fn request w :
  (is_ip_blocked (remote_addr request) w).1 = true ->
  status (auth_required fn request w).1 = 429.
Proof.
  intros Hblocked. unfold auth_required, authenticate, bind.
  destruct (is_ip_blocked (remote_addr request) w) as [blocked w1].
  simpl in Hblocked. by subst blocked.
Qed.

(** Probing other users' documents gets the prober blocked.  When an
    authenticated requester asks for a document of another user and this
    failure brings the counter of the address to the threshold or beyond,
    the address is blocked for 60 seconds from the clock reading of that
    failure: any protected request from the address that reads the clock
    less than 60 seconds later is answered 429, a valid token
    notwithstanding. *)
Theorem forbidden_downloads_block_the_address (request : Request)
    (w w1 : World) (requester : User.t) (doc_id : string) (doc : Document.t) :
  let ip := remote_addr request in
  let w' := (auth_required download_document request w).2 in
  authenticate request w = (inr requester, w1) ->
  args request !! "file_id" = Some doc_id ->
  doc_id <> EmptyString ->
  find (fun d => String.eqb (Document.id d) doc_id) (documents w) = Some doc ->
  Document.user_id doc <> User.id requester ->
  BLOCK_THRESHOLD <= failures w ip + 1 ->
  BLOCKED_IPS w' !! ip = Some (clock w' + BLOCK_DURATION) /\
  (Z.of_nat (hd 0%nat (ticks w')) < BLOCK_DURATION ->
   forall fn request',
     remote_addr request' = ip ->
     status (auth_required fn request' w').1 = 429).
Proof.
  intros ip w' Hauth Hargs Hid Hfind Hforeign Hcount.
  destruct (authenticate_inr_frame _ _ _ _ Hauth) as (Hfailed & _ & _ & Hdocs & _).
  assert (Hw' : w' = (register_failed_attempt ip
            (set_security_log
               (security_log w1 ++ [UnauthorizedDownload (User.id requester) doc_id ip])
               w1)).2).
  { unfold w'. rewrite (auth_required_inr _ _ _ _ _ Hauth).
    rewrite (download_document_foreign requester request w1 doc_id doc);
      [done|done|done|by rewrite Hdocs|done]. }
  destruct (register_failed_attempt_blocks ip
              (set_security_log
                 (security_log w1 ++ [UnauthorizedDownload (User.id requester) doc_id ip])
                 w1)) as [_ Hentry].
  { unfold failures. simpl. rewrite Hfailed. exact Hcount. }
  rewrite <- Hw' in Hentry. split; [exact Hentry|].
  intros Hsoon fn request' Haddr. apply auth_required_blocked. rewrite Haddr.
  apply (is_ip_blocked_active ip w' _ Hentry). lia.
Qed.

End Downloads.

(** ** The registry stays consistent *)

Section Registry.
Context `{platform : Platform}.

Lemma route_is_upload_or_not (route : Route) :
  route = PostUpload \/ route <> PostUpload.
Proof. destruct route; auto; right; discriminate. Qed.

Lemma dispatch_users route request w :
  users (dispatch route request w).2 = users w.
Proof.
  apply (dispatch_keeps same_users); auto with keeps.
  - by intros w0 v.
  - intros _. repeat split; auto with keeps.
Qed.

Lemma dispatch_read_only route request w :
  route <> PostUpload ->
  documents (dispatch route request w).2 = documents w /\
  uploads (dispatch route request w).2 = uploads w.
Proof.
  intros Hroute. split.
  - apply (dispatch_keeps same_documents); auto with keeps;
      [by intros w0 v|intros ->; congruence].
  - apply (dispatch_keeps same_uploads); auto with keeps;
      [by intros w0 v|intros ->; congruence].
Qed.

(** What the upload route does to the registry: nothing, apart from files
    it may add; or one new record, of a user of the table, under a fresh id,
    with its file. *)
Lemma dispatch_upload_cases request w :
  let w' := (dispatch PostUpload request w).2 in
  (documents w' = documents w /\
   forall path, is_Some (uploads w !! path) -> is_Some (uploads w' !! path)) \/
  (exists user doc content,
     user ∈ users w /\ Document.user_id doc = User.id user /\
     (Document.id doc ∉ map Document.id (documents w)) /\
     documents w' = (documents w ++ [doc])%list /\
     uploads w' = <[stored_path doc := content]> (uploads w)).
Proof.
  simpl. destruct (authenticate request w) as [[rejection|user] w1] eqn:Hauth.
  { rewrite (auth_required_inl _ _ _ _ _ Hauth). simpl. left.
    pose proof (authenticate_documents request w) as Hdocs.
    assert (Hdisk : keeps same_uploads (authenticate request))
      by (apply (authenticate_keeps same_uploads); auto with keeps).
    specialize (Hdisk w). unfold same_uploads in Hdisk.
    rewrite Hauth in Hdocs, Hdisk. simpl in Hdocs, Hdisk.
    split; [done|]. intros path. by rewrite Hdisk. }
  rewrite (auth_required_inr _ _ _ _ _ Hauth).
  destruct (authenticate_inr_frame _ _ _ _ Hauth) as (_ & _ & Husers & Hdocs & Hdisk & _).
  destruct (authenticate_inr _ _ _ _ Hauth) as (_ & _ & (payload & _ & Hfind) & _).
  apply find_some in Hfind as [Hin _]. apply list_elem_of_In in Hin.
  destruct (decide (status (upload_document user request w1).1 = 200)) as [Hok|Hbad].
  - right. destruct (upload_document user request w1) as [response w'] eqn:Hrun.
    destruct (upload_document_200 _ _ _ _ _ Hrun Hok)
      as (file & doc & _ & _ & Hdoc & Hfresh & _ & Hgrow & Hsaved & _).
    exists user, doc, (stream file). simpl.
    split; [done|]. split; [by rewrite Hdoc|]. rewrite Hgrow, Hsaved, Hdocs, Hdisk.
    split; [|done]. rewrite Hdocs in Hfresh. clear -Hfresh.
    induction (documents w) as [|d ds IH]; simpl in *.
    { apply not_elem_of_nil. }
    destruct (String.eqb_spec (Document.id d) (Document.id doc)) as [|Hne];
      [done|].
    apply not_elem_of_cons. split; [congruence|auto].
  - left. destruct (upload_document_not_200 user request w1 Hbad) as (Hsame & _ & Hkept).
    rewrite Hsame, Hdocs. split; [done|]. intros path Hsome. apply Hkept.
    by rewrite Hdisk.
Qed.

(** Document ids stay unique.  If no two records of the [Document] table
    share an id, the same holds after any request on any route: an upload
    whose generated id is already taken adds no record. *)
Theorem document_ids_stay_unique (route : Route) (request : Request) (w : World) :
  document_ids_unique w ->
  document_ids_unique (dispatch route request w).2.
Proof.
  unfold document_ids_unique. intros Hunique.
  destruct (route_is_upload_or_not route) as [->|Hroute].
  - destruct (dispatch_upload_cases request w)
      as [[Hsame _]|(user & doc & content & _ & _ & Hfresh & Hgrow & _)].
    + by rewrite Hsame.
    + rewrite Hgrow, map_app. apply NoDup_app. repeat split; [done| |].
      * intros id Hin Hnew. simpl in Hnew. apply list_elem_of_singleton in Hnew.
        by subst id.
      * simpl. apply NoDup_singleton.
  - destruct (dispatch_read_only route request w Hroute) as [-> _]. done.
Qed.

(** Every document keeps a file.  If every record of the [Document] table
    has a file in the upload folder under its stored name, the same holds
    after any request on any route: no route removes a file, and an upload
    saves the file before it adds the record. *)
Theorem documents_keep_their_files (route : Route) (request : Request) (w : World) :
  document_files_present w ->
  document_files_present (dispatch route request w).2.
Proof.
  unfold document_files_present. intros Hpresent.
  destruct (route_is_upload_or_not route) as [->|Hroute].
  - destruct (dispatch_upload_cases request w)
      as [[Hsame Hkept]|(user & doc & content & _ & _ & _ & Hgrow & Hsaved)].
    + rewrite Hsame. intros doc Hin. apply Hkept. by apply Hpresent.
    + rewrite Hgrow, Hsaved. intros doc0 Hin.
      destruct (decide (stored_path doc0 = stored_path doc)) as [->|Hne].
      * rewrite lookup_insert_eq. eauto.
      * rewrite lookup_insert_ne by done. apply Hpresent.
        apply elem_of_app in Hin as [Hin|Hin]; [done|].
        apply list_elem_of_singleton in Hin. by subst doc0.
  - destruct (dispatch_read_only route request w Hroute) as [-> ->]. done.
Qed.

(** Every document keeps an owner.  If every record of the [Document] table
    is owned by a user of the [User] table, the same holds after any request
    on any route: no route removes a user, and an upload gives the record
    the id of the user the gateway found in the table. *)
Theorem documents_keep_their_owners (route : Route) (request : Request) (w : World) :
  document_owners_exist w ->
  document_owners_exist (dispatch route request w).2.
Proof.
  unfold document_owners_exist. intros Howned. rewrite dispatch_users.
  destruct (route_is_upload_or_not route) as [->|Hroute].
  - destruct (dispatch_upload_cases request w)
      as [[Hsame _]|(user & doc & content & Huser & Hown & _ & Hgrow & _)].
    + by rewrite Hsame.
    + rewrite Hgrow. intros doc0 Hin.
      apply elem_of_app in Hin as [Hin|Hin]; [by apply Howned|].
      apply list_elem_of_singleton in Hin. subst doc0. eauto.
  - destruct (dispatch_read_only route request w Hroute) as [-> _]. done.
Qed.

End Registry.

(** ** Seeding *)

Lemma next_user_id_above table user :
  user ∈ table -> User.id user < next_user_id table.
Proof.
  unfold next_user_id. induction table as [|u table IH]; simpl.
  - intros Hin. by apply elem_of_nil in Hin.
  - intros Hin. apply elem_of_cons in Hin as [->|Hin]; [lia|].
    specialize (IH Hin). lia.
Qed.

(** What a commit of pending users does: it adds one row per pending user,
    in order, under fresh ids, and touches nothing but the [User] table and
    the clock. *)
Lemma commit_users_effect pending w :
  exists new,
    users (commit_users pending w).2 = (users w ++ new)%list /\
    map (fun u => (User.email u, User.password_hash u)) new = pending /\
    documents (commit_users pending w).2 = documents w /\
    uploads (commit_users pending w).2 = uploads w /\
    FAILED_ATTEMPTS (commit_users pending w).2 = FAILED_ATTEMPTS w /\
    BLOCKED_IPS (commit_users pending w).2 = BLOCKED_IPS w /\
    (NoDup (map User.id (users w)) ->
     NoDup (map User.id (users w ++ new))).
Proof.
  revert w. induction pending as [|[email pwhash] rest IH]; intros w.
  - exists []. simpl. rewrite app_nil_r. auto 10.
  - set (row := User.mk (next_user_id (users w)) email pwhash
                        (clock w + Z.of_nat (hd 0%nat (ticks w)))).
    set (w1 := set_users (users w ++ [row])
                 (set_clock (clock w + Z.of_nat (hd 0%nat (ticks w)))
                            (tl (ticks w)) w)).
    assert (Hstep : commit_users ((email, pwhash) :: rest) w = commit_users rest w1)
      by reflexivity.
    rewrite Hstep.
    destruct (IH w1) as (new & Husers & Hrows & Hdocs & Hdisk & Hf & Hb & Hids).
    exists (row :: new). rewrite Husers, Hdocs, Hdisk, Hf, Hb.
    unfold w1 at 1 2 3 4 5. simpl. rewrite <- app_assoc. simpl.
    split; [done|]. split; [by rewrite Hrows|]. repeat split.
    intros Hunique. replace (users w ++ row :: new)%list
      with ((users w ++ [row]) ++ new)%list by (by rewrite <- app_assoc).
    apply Hids. unfold w1. simpl. rewrite map_app. apply NoDup_app.
    repeat split; [done| |apply NoDup_singleton].
    intros id Hold Hnew. simpl in Hnew. apply list_elem_of_singleton in Hnew.
    subst id. apply list_elem_of_fmap in Hold as (user & Hid & Hin).
    apply next_user_id_above in Hin. simpl in Hid. lia.
Qed.

Section SeedingFacts.
Context (generate_password_hash : string -> string -> string).

(** The e-mails a seeding adds are the mock e-mails that are not there. *)
Lemma seed_mock_user_unfold salt w :
  let existing := map User.email (users w) in
  let added :=
    omap (fun '(email, pwd) =>
            if negb (bool_decide (email ∈ existing))
            then Some (email, generate_password_hash (salt email) pwd)
            else None)
         mock_users in
  seed_mock_user generate_password_hash salt w = commit_users added w /\
  map fst added = filter (fun e => e ∉ existing) (map fst mock_users) /\
  (forall email pwhash, (email, pwhash) ∈ added ->
     pwhash = generate_password_hash (salt email) "password123").
Proof.
  intros existing added. split; [reflexivity|].
  unfold added, mock_users. simpl.
  destruct (bool_decide_reflect ("test@student.com"%string ∈ existing)) as [H1|H1];
    destruct (bool_decide_reflect ("test1@student.com"%string ∈ existing)) as [H2|H2];
    simpl.
  - rewrite filter_cons_False, filter_cons_False by auto. split; [done|].
    intros ? ? Hin. by apply elem_of_nil in Hin.
  - rewrite filter_cons_False, filter_cons_True by auto. split; [done|].
    intros ? ? Hin. apply list_elem_of_singleton in Hin. by injection Hin as -> ->.
  - rewrite filter_cons_True, filter_cons_False by auto. split; [done|].
    intros ? ? Hin. apply list_elem_of_singleton in Hin. by injection Hin as -> ->.
  - rewrite filter_cons_True, filter_cons_True by auto. split; [done|].
    intros ? ? Hin. apply elem_of_cons in Hin as [Hin|Hin].
    + by injection Hin as -> ->.
    + apply list_elem_of_singleton in Hin. by injection Hin as -> ->.
Qed.

(** All there is to a seeding. *)
Lemma seed_mock_user_effect salt w :
  let w' := (seed_mock_user generate_password_hash salt w).2 in
  exists new,
    users w' = (users w ++ new)%list /\
    map User.email new
      = filter (fun e => e ∉ map User.email (users w)) (map fst mock_users) /\
    (forall user, user ∈ new ->
       User.password_hash user
       = generate_password_hash (salt (User.email user)) "password123") /\
    (forall email, email ∈ map fst mock_users ->
       email ∈ map User.email (users w')) /\
    documents w' = documents w /\
    (NoDup (map User.id (users w)) -> NoDup (map User.id (users w'))).
Proof.
  intros w'. destruct (seed_mock_user_unfold salt w) as (Hseed & Hemails & Hhash).
  unfold w'. rewrite Hseed.
  destruct (commit_users_effect
              (omap (fun '(email, pwd) =>
                 if negb (bool_decide (email ∈ map User.email (users w)))
                 then Some (email, generate_password_hash (salt email) pwd)
                 else None) mock_users) w)
    as (new & Husers & Hrows & Hdocs & _ & _ & _ & Hids).
  exists new. rewrite Husers.
  assert (Hnew : map User.email new
                 = filter (fun e => e ∉ map User.email (users w)) (map fst mock_users)).
  { rewrite <- Hemails, <- Hrows, <- list_fmap_compose. done. }
  split; [done|]. split; [done|]. split; [|split; [|done]].
  - intros user Hin. apply Hhash. rewrite <- Hrows.
    apply list_elem_of_fmap. by exists user.
  - intros email Hmock. rewrite map_app, Hnew.
    destruct (decide (email ∈ map User.email (users w))) as [Hold|Hnot].
    + apply elem_of_app. by left.
    + apply elem_of_app. right. by apply list_elem_of_filter.
Qed.

(** Seeding adds the missing mock users and nothing else.  After
    [seed_mock_user] the [User] table is the table before it followed by one
    new user for each of the two mock e-mails that no user had, in the order
    of the list, with the hash of [password123] under the salt drawn for it;
    so both mock e-mails are in the table afterwards, the users that were
    there are as they were, and the documents are untouched. *)
Theorem seed_mock_user_adds_the_missing (salt : string -> string) (w : World) :
  let w' := (seed_mock_user generate_password_hash salt w).2 in
  exists new,
    users w' = (users w ++ new)%list /\
    map User.email new
      = filter (fun e => e ∉ map User.email (users w)) (map fst mock_users) /\
    (forall user, user ∈ new ->
       User.password_hash user
       = generate_password_hash (salt (User.email user)) "password123") /\
    (forall email, email ∈ map fst mock_users ->
       email ∈ map User.email (users w')) /\
    documents w' = documents w.
Proof.
  intros w'.
  destruct (seed_mock_user_effect salt w) as (new & H1 & H2 & H3 & H4 & H5 & _).
  exists new. auto.
Qed.

(** Seeding twice is seeding once.  A second [seed_mock_user], whatever
    salts it would draw, finds both mock e-mails in the table and changes
    nothing at all: it inserts no user and does not read the clock. *)
Theorem seed_mock_user_idempotent (salt salt' : string -> string) (w : World) :
  let w' := (seed_mock_user generate_password_hash salt w).2 in
  seed_mock_user generate_password_hash salt' w' = (tt, w').
Proof.
  intros w'.
  destruct (seed_mock_user_effect salt w) as (new & _ & _ & _ & Hpresent & _).
  fold w' in Hpresent.
  unfold seed_mock_user, bind, gets, mock_users. simpl.
  rewrite !bool_decide_eq_true_2; [reflexivity| |];
    apply Hpresent; unfold mock_users; simpl; set_solver.
Qed.

(** Seeding keeps the keys of the [User] table.  If no two users share an
    e-mail before [seed_mock_user], none do after it, so its commit cannot
    run into the unique constraint on the e-mail; and if no two users share
    an id before, none do after. *)
Theorem seed_mock_user_keeps_keys (salt : string -> string) (w : World) :
  let w' := (seed_mock_user generate_password_hash salt w).2 in
  (NoDup (map User.email (users w)) -> NoDup (map User.email (users w'))) /\
  (NoDup (map User.id (users w)) -> NoDup (map User.id (users w'))).
Proof.
  intros w'.
  destruct (seed_mock_user_effect salt w) as (new & Husers & Hnew & _ & _ & _ & Hids).
  fold w' in Husers, Hids. split; [|done].
  intros Hunique. rewrite Husers, map_app, Hnew. apply NoDup_app.
  split; [done|]. split.
  - intros email Hold Hadded. by apply list_elem_of_filter in Hadded as [Hnot _].
  - apply NoDup_filter. unfold mock_users. simpl.
    apply NoDup_cons. split; [|apply NoDup_singleton].
    intros Hin. apply list_elem_of_singleton in Hin. discriminate.
Qed.

(** A seeded account can log in.  Provided [check_password_hash] accepts a
    password against the hash [generate_password_hash] made of it: after
    [seed_mock_user] on a table where a mock e-mail was not taken, a login
    with that e-mail and [password123] is answered 200. *)
Theorem seeded_user_can_login `{platform : Platform} (salt : string -> string)
    (w : World) (request : Request) (data : gmap string string) (email : string) :
  (forall s password,
     check_password_hash (generate_password_hash s password) password = true) ->
  email ∈ map fst mock_users ->
  email ∉ map User.email (users w) ->
  json request = Some data ->
  data !! "email" = Some email ->
  data !! "password" = Some "password123"%string ->
  status (login request (seed_mock_user generate_password_hash salt w).2).1 = 200.
Proof.
  intros Hcheck Hmock Hfree Hjson Hemail Hpassword.
  destruct (seed_mock_user_effect salt w) as (new & Husers & Hnew & Hhash & _).
  set (w' := (seed_mock_user generate_password_hash salt w).2) in *.
  assert (Hne : email <> EmptyString).
  { intros ->. unfold mock_users in Hmock. simpl in Hmock.
    apply elem_of_cons in Hmock as [Hmock|Hmock]; [discriminate|].
    apply list_elem_of_singleton in Hmock. discriminate. }
  assert (Hfind : exists user,
    find (fun u => String.eqb (User.email u) email) (users w') = Some user /\
    user ∈ new /\ User.email user = email).
  { rewrite Husers.
    assert (Hin : email ∈ map User.email new)
      by (rewrite Hnew; by apply list_elem_of_filter).
    clear -Hfree Hin. induction (users w) as [|u table IH]; simpl in *.
    - induction new as [|u new IH]; simpl in *.
      + by apply elem_of_nil in Hin.
      + destruct (String.eqb_spec (User.email u) email) as [Heq|Hneq].
        * exists u. split; [done|]. split; [apply list_elem_of_here|done].
        * apply elem_of_cons in Hin as [Hin|Hin]; [congruence|].
          destruct (IH Hin) as (user & Hfound & Hmem & Hmail).
          exists user. split; [done|]. split; [by apply list_elem_of_further|done].
    - apply not_elem_of_cons in Hfree as [Hneq Hfree].
      destruct (String.eqb_spec (User.email u) email) as [Heq|_]; [congruence|].
      by apply IH. }
  destruct Hfind as (user & Hfound & Hmem & Hmail).
  unfold login. cbv zeta. rewrite Hjson. simpl. rewrite Hemail, Hpassword. simpl.
  destruct (String.eqb_spec email EmptyString) as [|_]; [done|]. simpl.
  unfold bind at 1, User_query_filter_by_email, gets. simpl.
  rewrite Hfound. rewrite (Hhash user Hmem), Hcheck. reflexivity.
Qed.

End SeedingFacts.

(** ** From login to the gateway *)

Lemma find_by_id_unique table user :
  NoDup (map User.id table) ->
  user ∈ table ->
  find (fun u => User.id u =? User.id user) table = Some user.
Proof.
  induction table as [|u table IH]; simpl; intros Hunique Hin.
  - by apply elem_of_nil in Hin.
  - apply NoDup_cons in Hunique as [Hfresh Hunique].
    apply elem_of_cons in Hin as [->|Hin]; [by rewrite Z.eqb_refl|].
    destruct (Z.eqb_spec (User.id u) (User.id user)) as [Heq|_]; [|by apply IH].
    destruct Hfresh. rewrite Heq. apply list_elem_of_fmap. by exists user.
Qed.

Lemma startswith_bearer token :
  startswith ("Bearer " ++ token) "Bearer " = true.
Proof. by destruct token. Qed.

Lemma bearer_token_bearer token :
  bearer_token ("Bearer " ++ token) = strip token.
Proof. reflexivity. Qed.

Section TokenRoundTrip.
Context `{platform : Platform}.

(** The token of a login opens the gateway for the user who logged in.
    Let a login be answered 200 in a table with unique ids.  Its response
    names a user of the table and carries the encoding of claims whose
    subject is that user's id, issued at the first clock reading and
    expiring 3600 seconds after the second.  Then for any later request that
    presents this token as [Bearer] credential, from an address that is not
    blocked and while the table has the same users, provided the token has
    no surrounding white space and [jwt.decode] gives back the claims that
    were encoded, the gateway resolves the request to that same user. *)
Theorem login_token_opens_the_gateway (request : Request) (w w1 : World)
    (response : Response) :
  login request w = (response, w1) ->
  status response = 200 ->
  NoDup (map User.id (users w)) ->
  exists user,
    let payload :=
      Payload.mk (User.id user) (User.email user) (time_time w).1
                 ((time_time (time_time w).2).1 + JWT_EXPIRATION_SECONDS) in
    let token := jwt_encode payload JWT_SECRET_KEY in
    response
      = jsonify (LoginSuccessful (User.id user) (User.email user) token) /\
    user ∈ users w /\
    forall request' w2,
      users w2 = users w ->
      headers request' !! "Authorization" = Some ("Bearer " ++ token)%string ->
      strip token = token ->
      (is_ip_blocked (remote_addr request') w2).1 = false ->
      jwt_decode token JWT_SECRET_KEY
        (time_time (is_ip_blocked (remote_addr request') w2).2).1
        = Claims payload ->
      (authenticate request' w2).1 = inr user.
Proof.
  intros Hlogin Hok Hunique.
  destruct (login_200 _ _ _ _ Hlogin Hok) as (user & Hin & Hresponse & _).
  cbv zeta in Hresponse. apply list_elem_of_In in Hin.
  exists user. cbv zeta. split; [exact Hresponse|]. split; [done|].
  set (payload := Payload.mk (User.id user) (User.email user) (time_time w).1
                    ((time_time (time_time w).2).1 + JWT_EXPIRATION_SECONDS)).
  generalize (jwt_encode payload JWT_SECRET_KEY).
  intros token request' w2 Husers Hheader Hstrip Hfree Hdecode.
  unfold authenticate, bind.
  pose proof (is_ip_blocked_frame (remote_addr request') w2) as (Hsame & _).
  destruct (is_ip_blocked (remote_addr request') w2) as [blocked w3].
  cbn [fst snd] in *. subst blocked. rewrite Hheader.
  change (default EmptyString (Some ("Bearer " ++ token)%string))
    with ("Bearer " ++ token)%string.
  rewrite startswith_bearer, bearer_token_bearer, Hstrip. cbn [negb].
  destruct (time_time w3) as [now w4] eqn:Hnow. cbn [fst] in Hdecode.
  rewrite Hdecode.
  assert (Hw4 : users w4 = users w3)
    by (replace w4 with (time_time w3).2 by (by rewrite Hnow); reflexivity).
  assert (Htable : users w4 = users w) by congruence.
  unfold User_query_get, gets. simpl. rewrite Htable.
  by rewrite (find_by_id_unique _ _ Hunique Hin).
Qed.

End TokenRoundTrip.

(** * Further properties on concrete requests *)

(** Witness for [blocked_address_gets_429]: after ten failed logins, a
    request with [alice]'s valid token is turned away. *)
Lemma blocked_address_gets_429_witness :
  let w := Demo.repeat_request 10 Demo.failed_login (Demo.boot 1000 []) in
  let request := Demo.protected_request Demo.alice_token ∅ ∅ in
  status (@auth_required Demo.app list_documents request w).1 = 429 /\
  failures (@auth_required Demo.app list_documents request w).2 Demo.ip = 10.
Proof.
  intros w request.
  rewrite (@blocked_address_gets_429 Demo.app list_documents request w 1060);
    [|reflexivity|reflexivity].
  split; reflexivity.
Defined.

(** Witness for [gateway_rejection_effects]: a request without a header. *)
Lemma gateway_rejection_effects_witness :
  let request := mkRequest Demo.ip ∅ None ∅ ∅ ∅ in
  failures (@authenticate Demo.app request (Demo.boot 1000 [])).2 Demo.ip = 1.
Proof.
  intros request.
  destruct (@gateway_rejection_effects Demo.app request (Demo.boot 1000 [])
              (@authenticate Demo.app request (Demo.boot 1000 [])).2
              (jsonify_code (Error "Authentication required") 401))
    as [(Hblocked & _)|(_ & _ & Hcount)].
  - vm_compute. reflexivity.
  - vm_compute in Hblocked. discriminate.
  - exact Hcount.
Defined.

(** Witness for [missing_bearer_is_rejected]: a lower-case scheme. *)
Lemma missing_bearer_is_rejected_witness :
  let request :=
    mkRequest Demo.ip {[ "Authorization" := ("bearer " ++ Demo.alice_token)%string ]}
              None ∅ ∅ ∅ in
  (@auth_required Demo.app list_documents request (Demo.boot 1000 [])).1
    = jsonify_code (Error "Authentication required") 401.
Proof.
  intros request.
  by rewrite (@missing_bearer_is_rejected Demo.app list_documents request
                (Demo.boot 1000 [])).
Defined.

(** Witness for [unknown_subject_is_rejected]: a token for a user 3. *)
Lemma unknown_subject_is_rejected_witness :
  let carol := Payload.mk 3 "carol@student.com" 1000 4600 in
  let request :=
    Demo.protected_request (Demo.encode carol "super-secret-demo-key") ∅ ∅ in
  (@auth_required (Demo.platform [carol]) list_documents request
     (Demo.boot 1000 [])).1
    = jsonify_code (Error "User not found") 401.
Proof.
  intros carol request.
  rewrite (@unknown_subject_is_rejected (Demo.platform [carol]) list_documents
             request (Demo.boot 1000 []) carol); [reflexivity|reflexivity| | |].
  - vm_compute. reflexivity.
  - vm_compute. reflexivity.
  - intros user Hin. simpl in Hin.
    apply elem_of_cons in Hin as [->|Hin]; [discriminate|].
    apply list_elem_of_singleton in Hin. subst user. discriminate.
Defined.

(** Witness for [login_without_fields]: an empty password. *)
Lemma login_without_fields_witness :
  @login Demo.app (Demo.login_request "test@student.com" EmptyString)
    (Demo.boot 1000 [])
    = (jsonify_code (Error "Email and password required") 400, Demo.boot 1000 []).
Proof.
  apply (@login_without_fields Demo.app). right. right. right. reflexivity.
Defined.

(** Witness for [login_invalid_credentials_alike]: an unknown e-mail and a
    wrong password give the same response. *)
Lemma login_invalid_credentials_alike_witness :
  @login Demo.app (Demo.login_request "nobody@student.com" "password123")
    (Demo.boot 1000 [])
  = @login Demo.app (Demo.login_request "test@student.com" "wrong")
      (Demo.boot 1000 []).
Proof.
  rewrite (@login_invalid_credentials_alike Demo.app
             (Demo.login_request "nobody@student.com" "password123")
             (Demo.boot 1000 []) "nobody@student.com" "password123");
    [|reflexivity|discriminate|reflexivity|discriminate|].
  - rewrite (@login_invalid_credentials_alike Demo.app
               (Demo.login_request "test@student.com" "wrong")
               (Demo.boot 1000 []) "test@student.com" "wrong");
      [reflexivity|reflexivity|discriminate|reflexivity|discriminate|].
    intros user Hfind. vm_compute in Hfind. injection Hfind as <-. reflexivity.
  - intros user Hfind. vm_compute in Hfind. discriminate.
Defined.

(** Witness for [upload_then_lookup]: [alice] uploads [hw1.pdf]; the
    new document is hers and a lookup of its id finds it. *)
Lemma upload_then_lookup_witness :
  let w := (Demo.good_login (Demo.boot 1000 [])).2 in
  let request := Demo.protected_request Demo.alice_token ∅ {[ "file" := Demo.hw1 ]} in
  let w' := (@upload_document Demo.app Demo.alice request w).2 in
  exists doc,
    Document.user_id doc = 1 /\
    (Document_query_get (Document.id doc) w').1 = Some doc.
Proof.
  intros w request w'.
  destruct (@upload_then_lookup Demo.app Demo.alice request w w'
              (@upload_document Demo.app Demo.alice request w).1)
    as (doc & _ & Howner & Hfind & _).
  - vm_compute. reflexivity.
  - vm_compute. reflexivity.
  - exists doc. auto.
Defined.

(** Witness for [upload_then_list]: the upload shows in [alice]'s list and
    not in [bob]'s. *)
Lemma upload_then_list_witness :
  let w := (Demo.good_login (Demo.boot 1000 [])).2 in
  let request := Demo.protected_request Demo.alice_token ∅ {[ "file" := Demo.hw1 ]} in
  let w' := (@upload_document Demo.app Demo.alice request w).2 in
  (list_documents Demo.bob request w').1 = jsonify (DocumentList []).
Proof.
  intros w request w'.
  destruct (@upload_then_list Demo.app Demo.alice request w w'
              (@upload_document Demo.app Demo.alice request w).1)
    as (doc & _ & _ & Hother).
  - vm_compute. reflexivity.
  - vm_compute. reflexivity.
  - rewrite (Hother Demo.bob request) by discriminate. vm_compute. reflexivity.
Defined.

(** Witness for [upload_writes_one_path]: the path of [alice]'s upload at
    time 1000. *)
Lemma upload_writes_one_path_witness :
  let w := (Demo.good_login (Demo.boot 1000 [])).2 in
  let request := Demo.protected_request Demo.alice_token ∅ {[ "file" := Demo.hw1 ]} in
  let w' := (@upload_document Demo.app Demo.alice request w).2 in
  uploads w' !! "uploads/1_1000_hw1.pdf" = Some (stream Demo.hw1) /\
  uploads w' !! "uploads/other.pdf" = None.
Proof.
  intros w request w'.
  destruct (@upload_writes_one_path Demo.app Demo.alice request w w'
              (@upload_document Demo.app Demo.alice request w).1)
    as (file & Hfile & Hsaved & Hothers & _).
  - vm_compute. reflexivity.
  - vm_compute. reflexivity.
  - vm_compute in Hfile. injection Hfile as <-. split.
    + exact Hsaved.
    + rewrite Hothers by discriminate. reflexivity.
Defined.

(** Witness for [owner_download_records_nothing]: [alice] downloads her
    document; no failure is recorded and nothing is logged. *)
Lemma owner_download_records_nothing_witness :
  let request :=
    Demo.protected_request Demo.alice_token {[ "file_id" := Demo.hw1_id ]} ∅ in
  let w' := (download_document Demo.alice request Demo.with_upload).2 in
  FAILED_ATTEMPTS w' = FAILED_ATTEMPTS Demo.with_upload /\
  security_log w' = security_log Demo.with_upload.
Proof.
  intros request w'.
  destruct (owner_download_records_nothing Demo.alice request
              Demo.with_upload Demo.hw1_id
              (Document.mk Demo.hw1_id 1 "hw1.pdf" "1_1000_hw1.pdf" 1000))
    as (Hfailed & _ & Hlog & _);
    [reflexivity|discriminate|reflexivity|reflexivity|].
  split; [exact Hfailed|exact Hlog].
Defined.

(** Witness for [forbidden_downloads_block_the_address]: [bob]'s address has
    nine failures; his request for [alice]'s document is the tenth, and his
    next request is answered 429. *)
Lemma forbidden_downloads_block_the_address_witness :
  let w := failures_in_a_row 9 Demo.ip Demo.with_upload in
  let request :=
    Demo.protected_request Demo.bob_token {[ "file_id" := Demo.hw1_id ]} ∅ in
  let w' := (@auth_required Demo.app download_document request w).2 in
  status (@auth_required Demo.app list_documents
            (Demo.protected_request Demo.bob_token ∅ ∅) w').1 = 429.
Proof.
  intros w request w'.
  destruct (@forbidden_downloads_block_the_address Demo.app request w
              (@authenticate Demo.app request w).2 Demo.bob Demo.hw1_id
              (Document.mk Demo.hw1_id 1 "hw1.pdf" "1_1000_hw1.pdf" 1000))
    as [_ Hblocked].
  - vm_compute. reflexivity.
  - reflexivity.
  - discriminate.
  - vm_compute. reflexivity.
  - discriminate.
  - vm_compute. discriminate.
  - apply Hblocked; [vm_compute; reflexivity|reflexivity].
Defined.

(** Witnesses for the three invariants: they hold after [alice]'s upload,
    and so after a further request. *)
Lemma document_ids_stay_unique_witness :
  document_ids_unique
    (@dispatch Demo.app PostUpload
       (Demo.protected_request Demo.alice_token ∅ {[ "file" := Demo.hw1 ]})
       Demo.with_upload).2.
Proof.
  apply (@document_ids_stay_unique Demo.app).
  unfold document_ids_unique.
  replace (documents Demo.with_upload)
    with [Document.mk Demo.hw1_id 1 "hw1.pdf" "1_1000_hw1.pdf" 1000]
    by (vm_compute; reflexivity).
  apply NoDup_singleton.
Defined.

Lemma documents_keep_their_files_witness :
  document_files_present
    (@dispatch Demo.app PostUpload
       (Demo.protected_request Demo.alice_token ∅ {[ "file" := Demo.hw1 ]})
       Demo.with_upload).2.
Proof.
  apply (@documents_keep_their_files Demo.app).
  unfold document_files_present.
  replace (documents Demo.with_upload)
    with [Document.mk Demo.hw1_id 1 "hw1.pdf" "1_1000_hw1.pdf" 1000]
    by (vm_compute; reflexivity).
  intros doc Hin. apply list_elem_of_singleton in Hin. subst doc.
  exists (stream Demo.hw1). vm_compute. reflexivity.
Defined.

Lemma documents_keep_their_owners_witness :
  document_owners_exist
    (@dispatch Demo.app PostUpload
       (Demo.protected_request Demo.alice_token ∅ {[ "file" := Demo.hw1 ]})
       Demo.with_upload).2.
Proof.
  apply (@documents_keep_their_owners Demo.app).
  unfold document_owners_exist.
  replace (documents Demo.with_upload)
    with [Document.mk Demo.hw1_id 1 "hw1.pdf" "1_1000_hw1.pdf" 1000]
    by (vm_compute; reflexivity).
  intros doc Hin. apply list_elem_of_singleton in Hin. subst doc.
  exists Demo.alice. split; [|reflexivity].
  replace (users Demo.with_upload) with [Demo.alice; Demo.bob]
    by (vm_compute; reflexivity).
  apply list_elem_of_here.
Defined.

(** Witnesses for the seeding: an empty table gets the two mock users, with
    ids 1 and 2, and [test1@student.com] can log in. *)
Lemma seed_mock_user_adds_the_missing_witness :
  let w := mkWorld ∅ ∅ [] [] ∅ [] 0 [] 0 in
  map User.email (users (seed_mock_user demo_hash (fun _ => EmptyString) w).2)
    = ["test@student.com"; "test1@student.com"]%string.
Proof.
  intros w.
  destruct (seed_mock_user_adds_the_missing demo_hash (fun _ => EmptyString) w)
    as (new & Husers & Hnew & _).
  rewrite Husers, map_app, Hnew. reflexivity.
Defined.

Lemma seed_mock_user_keeps_keys_witness :
  NoDup (map User.email
           (users (seed_mock_user demo_hash (fun _ => EmptyString)
                     (Demo.boot 1000 [])).2)).
Proof.
  apply (seed_mock_user_keeps_keys demo_hash (fun _ => EmptyString)
           (Demo.boot 1000 [])).
  simpl. apply NoDup_cons. split; [|apply NoDup_singleton].
  intros Hin. apply list_elem_of_singleton in Hin. discriminate.
Defined.

Lemma seeded_user_can_login_witness :
  let w := mkWorld ∅ ∅ [] [] ∅ [] 0 [] 0 in
  status (@login Demo.app (Demo.login_request "test1@student.com" "password123")
            (seed_mock_user demo_hash (fun _ => EmptyString) w).2).1 = 200.
Proof.
  intros w.
  apply (@seeded_user_can_login demo_hash Demo.app (fun _ => EmptyString) w
           (Demo.login_request "test1@student.com" "password123")
           {[ "email" := "test1@student.com"%string;
              "password" := "password123"%string ]}
           "test1@student.com").
  - intros s password. simpl. unfold demo_hash. apply String.eqb_refl.
  - unfold mock_users. simpl. apply list_elem_of_further, list_elem_of_here.
  - simpl. apply not_elem_of_nil.
  - reflexivity.
  - reflexivity.
  - reflexivity.
Defined.

(** Witness for [login_token_opens_the_gateway]: [alice] logs in at 1000
    and her token resolves to her at 2000. *)
Lemma login_token_opens_the_gateway_witness :
  exists user,
    User.id user = 1 /\
    (@authenticate Demo.app (Demo.protected_request Demo.alice_token ∅ ∅)
       (Demo.boot 2000 [])).1 = inr user.
Proof.
  destruct (@login_token_opens_the_gateway Demo.app
              (Demo.login_request "test@student.com" "password123")
              (Demo.boot 1000 []) (Demo.good_login (Demo.boot 1000 [])).2
              (Demo.good_login (Demo.boot 1000 [])).1)
    as (user & Hresponse & Hin & Hgate).
  - vm_compute. reflexivity.
  - vm_compute. reflexivity.
  - simpl. apply NoDup_cons. split; [|apply NoDup_singleton].
    intros Hin. apply list_elem_of_singleton in Hin. discriminate.
  - cbv zeta in Hgate.
    assert (Huser : User.id user = 1 /\ User.email user = "test@student.com"%string).
    { assert (Hanswer : (Demo.good_login (Demo.boot 1000 [])).1
                        = jsonify (LoginSuccessful 1 "test@student.com"
                                     Demo.alice_token))
        by (vm_compute; reflexivity).
      rewrite Hanswer in Hresponse. unfold jsonify in Hresponse.
      by injection Hresponse as <- <- _. }
    destruct Huser as [Hid Hemail]. rewrite Hid, Hemail in Hgate.
    exists user. split; [done|].
    apply (Hgate (Demo.protected_request Demo.alice_token ∅ ∅) (Demo.boot 2000 []));
      vm_compute; reflexivity.
Defined.
